(** * SRT Translator Pro: the consumer (app.py) and the job pipeline

    A shallow embedding of [src/app.py] (class [SRTTranslatorApp]): the
    handlers that start a job ([_process_video], [_select_local_file]),
    the command listener ([_setup_command_listener], [check_commands])
    and the dispatch of terminal commands ([_handle_command] and the three
    [_handle_processing_*] handlers).

    [app.py] imports the processor ([video_processor]), the shared queue
    and configuration ([utils]) and the dialogs ([ui_components]).  The
    application is embedded from its code; the collaborators appear as
    calls whose outcome the environment decides.  The job pipeline behind
    [process_video] is modelled from the specification, in module
    [Pipeline], and is marked as such. *)

From Stdlib Require Import Ascii String.
From stdpp Require Import base option list strings gmap.

(** ** Python values used by the application *)

Module Py.

(** [bool(s)] for a [str]: only the empty string is falsy. *)
Definition truthy (s : string) : bool :=
  match s with
  | EmptyString => false
  | String _ _ => true
  end.

(** [bool(v)] for a [str | None]. *)
Definition truthy_opt (v : option string) : bool :=
  match v with
  | Some s => truthy s
  | None => false
  end.

(** [s.split(sep)[0]] for a non-empty separator: the part of [s] before
    the first occurrence of [sep], all of [s] when there is none. *)
Fixpoint split_head (sep s : string) : string :=
  if Stdlib.Strings.String.prefix sep s then EmptyString
  else match s with
       | EmptyString => EmptyString
       | String c t => String c (split_head sep t)
       end.

Fixpoint has_slash (p : string) : bool :=
  match p with
  | EmptyString => false
  | String c t => if Stdlib.Strings.Ascii.eqb c "/"%char then true else has_slash t
  end.

(** [os.path.basename(p)] with the POSIX separator. *)
Fixpoint basename (p : string) : string :=
  match p with
  | EmptyString => EmptyString
  | String c t =>
      if has_slash t then basename t
      else if Stdlib.Strings.Ascii.eqb c "/"%char then t else p
  end.

End Py.

(** ** Texts shown or logged by the application *)

Module Msg.
(** The line feed of the escapes in the texts below. *)
Definition nl : string := String "010" "".
Definition input_error : string := "Erreur d'entrée".
Definition no_source : string :=
  "Veuillez entrer une URL ou sélectionner un fichier vidéo.".
Definition no_language : string := "Veuillez sélectionner une langue cible.".
Definition progress_title : string := "Traitement de la vidéo".
Definition done_title : string := "Traitement terminé".
Definition done_message : string :=
  "Le traitement s'est terminé avec succès!" +:+ nl +:+ nl
  +:+ "Tous les fichiers ont été enregistrés dans le dossier ci-dessous:".
Definition information : string := "Information".
Definition done_fallback : string :=
  "Le traitement est terminé." +:+ nl
  +:+ "Les fichiers se trouvent dans:" +:+ nl.
Definition cancelled_title : string := "Traitement annulé".
Definition cancelled_message : string :=
  "Le traitement a été annulé par l'utilisateur.".
Definition error_title : string := "Erreur de traitement".
Definition log_done_failed : string := "Erreur en fin de traitement".
Definition log_cancel_failed : string := "Erreur lors de l'annulation".
Definition log_error_failed : string :=
  "Erreur lors de l'affichage de l'erreur".
Definition log_listener_failed : string :=
  "Erreur dans le listener de commandes".
Definition log_model : string := "Modèle Whisper sélectionné: ".
Definition log_local : string := "Traitement d'un fichier vidéo local: ".
Definition log_url : string := "Traitement d'une vidéo à partir de l'URL: ".
Definition log_selected : string := "Fichier vidéo sélectionné: ".
Definition local_prefix : string := "Fichier local: ".
End Msg.

(** ** The application *)

Module App.

(** The attributes of the process-wide [config] object that the
    application writes before a job. *)
Record Config := mkConfig {
  deepl_key : string;
  openai_key : string;
  whisper_model : string
}.

(** The widgets read by [_process_video]. *)
Record Widgets := mkWidgets {
  url_entry : string;
  deepl_key_entry : string;
  openai_key_entry : string;
  whisper_model_combobox : string;
  language_combobox : string;
  service_combobox : string;
  gpu_var : bool
}.

(** A [ProgressWindow] object. *)
Inductive ProgressWindow := PwOpen | PwClosed.

(** A message of [command_queue]: a Python dict with string keys. *)
Abbreviation Cmd := (gmap string string).

(** The state the application works on.  [progress_window] is [None]
    as long as the attribute has never been assigned; [api_client]
    is what the processor took from [config] at its last
    [update_api_client]. *)
Record State := mkState {
  widgets : Widgets;
  config : Config;
  api_client : Config;
  progress_window : option ProgressWindow;
  command_queue : list Cmd
}.

(** Calls into the collaborators ([config], [messagebox], the processor,
    the progress window and the result dialog), with their arguments. *)
Inductive Call :=
| save_api_keys (c : Config)
| save_config (c : Config)
| update_api_client (c : Config)
| showwarning (title message : string)
| showinfo (title message : string)
| showerror (title : string) (detail : option string)
| new_ProgressWindow (title : string)
| process_video (source_url local_path : option string)
    (target_language translation_service : string) (use_gpu : bool)
| progress_close
| new_ResultDialog (title message : string) (video_folder : option string)
| result_dialog_show
| root_after (ms : nat)
| log_info (message : string)
| log_error (message : string).

Inductive Exn :=
| QueueEmpty
| AttributeError
| CallError (c : Call).

(** What the application cannot decide: the CUDA probe and which calls
    into a collaborator raise. *)
Record Env := mkEnv {
  is_cuda_available : bool;
  raises : Call → bool
}.

Inductive Result (A : Type) :=
| Ret (a : A)
| Raise (e : Exn).
Arguments Ret {A} a.
Arguments Raise {A} e.

(** A method of the application: it reads and updates the state, makes
    calls (recorded in order) and returns or raises. *)
Definition M (A : Type) : Type := State → Result A * State * list Call.

Definition ret {A} (a : A) : M A := λ st, (Ret a, st, []).

Definition bind {A B} (m : M A) (k : A → M B) : M B :=
  λ st,
    match m st with
    | (Ret a, st1, t1) =>
        let '(r, st2, t2) := k a st1 in (r, st2, t1 ++ t2)
    | (Raise e, st1, t1) => (Raise e, st1, t1)
    end.

Definition raise {A} (e : Exn) : M A := λ st, (Raise e, st, []).

(** [try: m except <catches>: h] *)
Definition try_except {A} (catches : Exn → bool) (m : M A) (h : Exn → M A)
    : M A :=
  λ st,
    match m st with
    | (Raise e, st1, t1) =>
        if catches e
        then let '(r, st2, t2) := h e st1 in (r, st2, t1 ++ t2)
        else (Raise e, st1, t1)
    | done => done
    end.

Definition get : M State := λ st, (Ret st, st, []).
Definition put (st : State) : M unit := λ _, (Ret tt, st, []).
Definition modify (f : State → State) : M unit := λ st, (Ret tt, f st, []).

Notation "x <- m ;; k" := (bind m (λ x, k))
  (at level 100, m at next level, right associativity,
   format "'[v' x  <-  m  ;;  '/' k ']'").
Notation "m ;;; k" := (bind m (λ _, k))
  (at level 100, right associativity,
   format "'[v' m  ;;;  '/' k ']'").

Definition when (b : bool) (m : M unit) : M unit :=
  if b then m else ret tt.

(** [except Exception] catches everything the model can raise. *)
Definition any_exception (e : Exn) : bool := true.

(** [except queue.Empty] *)
Definition is_queue_empty (e : Exn) : bool :=
  match e with
  | QueueEmpty => true
  | _ => false
  end.

Section Methods.

Variable env : Env.

(** A call into a collaborator.  [logging] and the scheduling of a
    callback with [root.after] are taken not to raise. *)
Definition call (c : Call) : M unit :=
  λ st,
    match c with
    | log_info _ | log_error _ | root_after _ => (Ret tt, st, [c])
    | _ => if raises env c then (Raise (CallError c), st, [c])
           else (Ret tt, st, [c])
    end.

Definition set_config (f : Config → Config) : M unit :=
  modify (λ st, mkState (widgets st) (f (config st)) (api_client st)
                        (progress_window st) (command_queue st)).

(** Modelled from the spec: [update_api_client] of the processor
    ([video_processor] is not among the sources).  It "re-snapshots
    translation credentials/model configuration from the current
    process-wide config": the processor's client becomes a copy of
    [config] as it is at the call. *)
Definition processor_update_api_client : M unit :=
  st <- get ;;
  call (update_api_client (config st)) ;;;
  modify (λ st, mkState (widgets st) (config st) (config st)
                        (progress_window st) (command_queue st)).

Definition set_progress_window (p : ProgressWindow) : M unit :=
  modify (λ st, mkState (widgets st) (config st) (api_client st)
                        (Some p) (command_queue st)).

Definition set_url_entry (s : string) : M unit :=
  modify (λ st,
    let w := widgets st in
    mkState (mkWidgets s (deepl_key_entry w) (openai_key_entry w)
               (whisper_model_combobox w) (language_combobox w)
               (service_combobox w) (gpu_var w))
            (config st) (api_client st) (progress_window st)
            (command_queue st)).

(** [SRTTranslatorApp._process_video(self, video_path=None)] *)
Definition _process_video (video_path : option string) : M unit :=
  st <- get ;;
  let w := widgets st in
  let url := url_entry w in
  let deepl := deepl_key_entry w in
  let openai := openai_key_entry w in
  set_config (λ c, mkConfig deepl (openai_key c) (whisper_model c)) ;;;
  set_config (λ c, mkConfig (deepl_key c) openai (whisper_model c)) ;;;
  (st <- get ;; call (save_api_keys (config st))) ;;;
  let model := whisper_model_combobox w in
  when (Py.truthy model)
    (set_config (λ c, mkConfig (deepl_key c) (openai_key c) model) ;;;
     (st <- get ;; call (save_config (config st))) ;;;
     call (log_info (Msg.log_model +:+ model))) ;;;
  processor_update_api_client ;;;
  let use_gpu := gpu_var w && is_cuda_available env in
  if negb (Py.truthy url) && negb (Py.truthy_opt video_path) then
    call (showwarning Msg.input_error Msg.no_source)
  else
    let target_language := Py.split_head " - " (language_combobox w) in
    let translation_service := service_combobox w in
    if negb (Py.truthy target_language) then
      call (showwarning Msg.input_error Msg.no_language)
    else
      call (new_ProgressWindow Msg.progress_title) ;;;
      set_progress_window PwOpen ;;;
      if Py.truthy_opt video_path then
        call (log_info (Msg.log_local
                        +:+ Py.basename (default "" video_path))) ;;;
        call (process_video None video_path target_language
                translation_service use_gpu)
      else
        call (log_info (Msg.log_url +:+ url)) ;;;
        call (process_video (Some url) None target_language
                translation_service use_gpu).

(** [self.url_entry.delete(0, tk.END); self.url_entry.insert(0, s)] *)
Definition url_entry_replace (s : string) : M unit := set_url_entry s.

(** [SRTTranslatorApp._select_local_file(self)]; [file_path] is what
    [filedialog.askopenfilename] returned (empty when dismissed). *)
Definition _select_local_file (file_path : string) : M unit :=
  when (Py.truthy file_path)
    (url_entry_replace (Msg.local_prefix +:+ Py.basename file_path) ;;;
     call (log_info (Msg.log_selected +:+ file_path)) ;;;
     _process_video (Some file_path)).

(** [self.progress_window.close()]: an [AttributeError] as long as no
    progress window was ever created. *)
Definition progress_window_close : M unit :=
  st <- get ;;
  match progress_window st with
  | None => raise AttributeError
  | Some _ => call progress_close ;;; set_progress_window PwClosed
  end.

(** [str(v)] inside an f-string. *)
Definition fstr (v : option string) : string :=
  match v with
  | Some s => s
  | None => "None"
  end.

(** [SRTTranslatorApp._handle_processing_done(self, video_folder)] *)
Definition _handle_processing_done (video_folder : option string)
    : M unit :=
  try_except any_exception
    (progress_window_close ;;;
     call (new_ResultDialog Msg.done_title Msg.done_message video_folder) ;;;
     call result_dialog_show)
    (λ e,
       call (log_error Msg.log_done_failed) ;;;
       call (showinfo Msg.information
               (Msg.done_fallback +:+ fstr video_folder))).

(** [SRTTranslatorApp._handle_processing_cancelled(self)] *)
Definition _handle_processing_cancelled : M unit :=
  try_except any_exception
    (progress_window_close ;;;
     call (showinfo Msg.cancelled_title Msg.cancelled_message))
    (λ e, call (log_error Msg.log_cancel_failed)).

(** [SRTTranslatorApp._handle_processing_error(self, error_message)] *)
Definition _handle_processing_error (error_message : option string)
    : M unit :=
  try_except any_exception
    (progress_window_close ;;;
     call (showerror Msg.error_title error_message))
    (λ e, call (log_error Msg.log_error_failed)).

(** [SRTTranslatorApp._handle_command(self, cmd)] *)
Definition _handle_command (cmd : Cmd) : M unit :=
  let command := cmd !! "command" in
  if bool_decide (command = Some "processing_done") then
    _handle_processing_done (cmd !! "video_folder")
  else if bool_decide (command = Some "processing_cancelled") then
    _handle_processing_cancelled
  else if bool_decide (command = Some "error") then
    _handle_processing_error (cmd !! "message")
  else ret tt.

(** [command_queue.get_nowait()] *)
Definition get_nowait : M Cmd :=
  st <- get ;;
  match command_queue st with
  | [] => raise QueueEmpty
  | cmd :: rest =>
      put (mkState (widgets st) (config st) (api_client st)
             (progress_window st) rest) ;;;
      ret cmd
  end.

(** The closure [check_commands] of [_setup_command_listener]. *)
Definition check_commands : M unit :=
  try_except any_exception
    (try_except is_queue_empty
       (cmd <- get_nowait ;; _handle_command cmd)
       (λ _, ret tt) ;;;
     call (root_after 100))
    (λ e,
       call (log_error Msg.log_listener_failed) ;;;
       call (root_after 1000)).

(** [SRTTranslatorApp._setup_command_listener(self)]: it arms the timer
    for the first run of [check_commands]. *)
Definition _setup_command_listener : M unit := call (root_after 100).

(** What the user can do to start a job: the button "Démarrer le
    Traitement" ([lambda: self._process_video()]) and the button
    "Parcourir" or the menu entry bound to [_select_local_file]. *)
Inductive Action :=
| StartProcessing
| SelectLocalFile (file_path : string).

Definition on_action (a : Action) : M unit :=
  match a with
  | StartProcessing => _process_video None
  | SelectLocalFile file_path => _select_local_file file_path
  end.

End Methods.

(** *** Observations on a run *)

Definition result {A} (out : Result A * State * list Call) : Result A :=
  out.1.1.
Definition final {A} (out : Result A * State * list Call) : State :=
  out.1.2.
Definition trace {A} (out : Result A * State * list Call) : list Call :=
  out.2.

Definition is_process_video (c : Call) : bool :=
  match c with
  | process_video _ _ _ _ _ => true
  | _ => false
  end.

Definition is_new_ProgressWindow (c : Call) : bool :=
  match c with
  | new_ProgressWindow _ => true
  | _ => false
  end.

Definition is_root_after (c : Call) : bool :=
  match c with
  | root_after _ => true
  | _ => false
  end.

(** The run hands a job to the processor. *)
Definition starts_job (t : list Call) : bool := existsb is_process_video t.

(** The language codes offered by [language_combobox]. *)
Definition supported_languages : list string :=
  ["FR"; "EN"; "ES"; "DE"; "IT"; "ZH"; "JA"; "RU"; "NL"; "PT"; "AR"; "HI";
   "KO"; "TR"].

Definition target_language_of (st : State) : string :=
  Py.split_head " - " (language_combobox (widgets st)).

(** Exactly one of the URL field and the local path is present, and the
    target language is one of the supported codes. *)
Definition exactly_one_source_and_supported
    (st : State) (video_path : option string) : bool :=
  xorb (Py.truthy (url_entry (widgets st))) (Py.truthy_opt video_path)
  && bool_decide (target_language_of st ∈ supported_languages).

(** What [_process_video] checks: some source is present and the
    language code is not empty. *)
Definition accepted (st : State) (video_path : option string) : bool :=
  (Py.truthy (url_entry (widgets st)) || Py.truthy_opt video_path)
  && Py.truthy (target_language_of st).

(** The calls [_process_video] makes before it looks at the source:
    persisting the configuration and refreshing the processor. *)
Definition is_setup_call (c : Call) : bool :=
  match c with
  | save_api_keys _ | save_config _ | update_api_client _ => true
  | _ => false
  end.

Definition setup_raised {A} (r : Result A) : bool :=
  match r with
  | Raise (CallError c) => is_setup_call c
  | _ => false
  end.

(** No call into a collaborator raises. *)
Definition quiet (env : Env) : Prop := ∀ c, raises env c = false.

(** *** The listener under the Tk main loop *)

(** The main loop, as far as the listener's timer goes: in each round
    the callback runs if and only if the round before, or
    [_setup_command_listener] for the first round, scheduled it with
    [root.after].  The collaborators may behave differently from round
    to round: [envs i] is the environment of round [i].  The result
    counts the runs of [check_commands]. *)
Fixpoint listener (envs : nat → Env) (rounds : nat) (scheduled : bool)
    (st : State) : nat * State * list Call :=
  match rounds with
  | 0 => (0, st, [])
  | S k =>
      if scheduled then
        let out := check_commands (envs 0) st in
        let '(n, st', t) :=
          listener (λ i, envs (S i)) k (existsb is_root_after (trace out))
            (final out) in
        (S n, st', trace out ++ t)
      else (0, st, [])
  end.

(** *** Terminal commands and what the user is shown *)

Inductive Outcome := OutcomeDone | OutcomeCancelled | OutcomeError.

(** The tag of a message, by the schema of the channel. *)
Definition outcome_of_command (cmd : Cmd) : option Outcome :=
  match cmd !! "command" with
  | Some tag =>
      if bool_decide (tag = "processing_done") then Some OutcomeDone
      else if bool_decide (tag = "processing_cancelled")
           then Some OutcomeCancelled
      else if bool_decide (tag = "error") then Some OutcomeError
      else None
  | None => None
  end.

Definition is_terminal (cmd : Cmd) : bool :=
  match outcome_of_command cmd with
  | Some _ => true
  | None => false
  end.

(** The messages of one job obey the contract of the channel: at most
    one of them is a terminal command. *)
Definition at_most_one_terminal (q : list Cmd) : Prop :=
  length (filter (λ cmd, is_terminal cmd = true) q) ≤ 1.

(** The handler that belongs to an outcome. *)
Definition handler (env : Env) (o : Outcome) (cmd : Cmd) : M unit :=
  match o with
  | OutcomeDone => _handle_processing_done env (cmd !! "video_folder")
  | OutcomeCancelled => _handle_processing_cancelled env
  | OutcomeError => _handle_processing_error env (cmd !! "message")
  end.

(** The outcome a call puts before the user, if any: the result dialog
    and the fallback information box say that the job is done, the
    other two boxes that it was cancelled or failed. *)
Definition displayed (c : Call) : option Outcome :=
  match c with
  | new_ResultDialog _ _ _ | result_dialog_show => Some OutcomeDone
  | showinfo title _ =>
      if bool_decide (title = Msg.information) then Some OutcomeDone
      else if bool_decide (title = Msg.cancelled_title)
           then Some OutcomeCancelled
      else None
  | showerror _ _ => Some OutcomeError
  | _ => None
  end.

Definition shown (t : list Call) : list Outcome := omap displayed t.

(** The state with another queue of commands. *)
Definition with_queue (st : State) (q : list Cmd) : State :=
  mkState (widgets st) (config st) (api_client st) (progress_window st) q.

(** The call that starts the job for an accepted input. *)
Definition job_call (env : Env) (st : State) (video_path : option string)
    : Call :=
  let w := widgets st in
  process_video
    (if Py.truthy_opt video_path then None else Some (url_entry w))
    (if Py.truthy_opt video_path then video_path else None)
    (target_language_of st) (service_combobox w)
    (gpu_var w && is_cuda_available env).

(** The reading of the validation rule under which a job with both a
    URL and a local path, or with an unsupported language, is turned
    away. *)
Definition rejects_unless_exactly_one
    (env : Env) (st : State) (video_path : option string) : Prop :=
  exactly_one_source_and_supported st video_path = false →
  starts_job (trace (_process_video env video_path st)) = false.

End App.

(** ** The job pipeline *)

(** Modelled from the spec: the job pipeline of [video_processor]
    (subtitle documents, translation backends, the state machine of a job
    and the runner that publishes its terminal command).  [app.py] only
    calls [process_video] and [update_api_client] on it and reads what it
    puts on [command_queue]. *)
Module Pipeline.

(** Modelled from the spec: [SubtitleEntry] and [SubtitleDocument] of
    the data model (the transcription and translation code is in
    [video_processor], not among the sources).  Durations are counted
    in milliseconds. *)
Record SubtitleEntry := mkEntry {
  index : nat;
  start : nat;
  end_ : nat;
  text : string
}.

(** Modelled from the spec: an "ordered sequence" of entries. *)
Abbreviation SubtitleDocument := (list SubtitleEntry).

(** Modelled from the spec: the two variants of [TranslationBackend]. *)
Inductive Backend := NeuralMT | ChatCompletion.

(** Modelled from the spec: the error taxonomy of section 7. *)
Inductive ErrorKind :=
| InputError
| DownloadError
| AudioExtractionError
| TranscriptionError
| TranslationError
| AssemblyError.

(** Modelled from the spec: a [PipelineJob] as submitted through
    [process_video(source_url, local_path, target_language,
    translation_service, use_gpu)]. *)
Record PipelineJob := mkJob {
  source_url : option string;
  local_path : option string;
  target_language : string;
  backend : Backend;
  use_gpu : bool
}.

(** Modelled from the spec: the states of a job (section 4.1). *)
Inductive JobStatus :=
| Pending
| Downloading
| ExtractingAudio
| Transcribing
| Translating
| Assembling
| Done
| Cancelled
| Failed.

(** Modelled from the spec: the tagged union [TerminalCommand]. *)
Inductive TerminalCommand :=
| CmdDone (video_folder : string)
| CmdCancelled
| CmdError (message : string).

(** Modelled from the spec: an answer of the machine-translation
    service; a transient failure (rate limiting, timeout) may be
    retried. *)
Inductive Reply :=
| Translated (texts : list string)
| TransientFailure
| FatalFailure.

(** Modelled from the spec: the capabilities a runner invokes and the
    cancellation token it observes.  [cancel_requested k] is what the
    [k]-th read of the token returns; [mt_translate] takes the number of
    the attempt; [chat_complete] is the completion for the prompt of a
    batch, parsed into entries. *)
Record Services := mkServices {
  supported : list string;
  download : string → option string;
  extract_audio : string → option string;
  cuda : bool;
  transcribe : string → bool → option SubtitleDocument;
  mt_translate : nat → list string → string → Reply;
  max_retries : nat;
  chat_complete : list string → string → option (list string);
  batch_size : nat;
  assemble : string → SubtitleDocument → SubtitleDocument → option string;
  cancel_requested : nat → bool
}.

(** Modelled from the spec: what a runner does, in order (newest first
    in [log]). *)
Inductive Event :=
| EvCheck (k : nat) (observed : bool)
| EvEnter (s : JobStatus)
| EvBatch (size : nat)
| EvCleanup
| EvPublish (c : TerminalCommand).

(** Modelled from the spec: the state of one execution of a job. *)
Record Run := mkRun {
  status : JobStatus;
  checks : nat;
  video : string;
  audio : string;
  original : SubtitleDocument;
  texts : list string;
  translated : SubtitleDocument;
  log : list Event
}.

(** Modelled from the spec: "[Done], [Cancelled], [Failed] are
    terminal". *)
Definition terminal (s : JobStatus) : bool :=
  match s with
  | Done | Cancelled | Failed => true
  | _ => false
  end.

(** Modelled from the spec: the "human-readable message" of an [Error]
    command. *)
Definition message_of (k : ErrorKind) : string :=
  match k with
  | InputError => "invalid input"
  | DownloadError => "download failed"
  | AudioExtractionError => "audio extraction failed"
  | TranscriptionError => "transcription failed"
  | TranslationError => "translation failed"
  | AssemblyError => "assembly failed"
  end.

(** *** Translation backends *)

Section Translation.

Variable sv : Services.

(** Modelled from the spec: [NeuralMT] sends a batch to the service,
    with a bounded number of retries on transient failures;
    exhausting them is a [TranslationError] ([None]). *)
Fixpoint neural_mt (retries attempt : nat) (batch : list string)
    (lang : string) : option (list string) :=
  match mt_translate sv attempt batch lang with
  | Translated ts => Some ts
  | FatalFailure => None
  | TransientFailure =>
      match retries with
      | 0 => None
      | S r => neural_mt r (S attempt) batch lang
      end
  end.

(** Modelled from the spec: [ChatCompletion] asks for a completion
    per batch; "a response with a mismatched entry count is treated as
    a backend error, not silently truncated or padded". *)
Definition chat_completion (batch : list string) (lang : string)
    : option (list string) :=
  match chat_complete sv batch lang with
  | Some ts => if length ts =? length batch then Some ts else None
  | None => None
  end.

(** Modelled from the spec: the backend is "a configuration value on
    the job". *)
Definition translate_batch (b : Backend) (batch : list string)
    (lang : string) : option (list string) :=
  match b with
  | NeuralMT => neural_mt (max_retries sv) 0 batch lang
  | ChatCompletion => chat_completion batch lang
  end.

(** Modelled from the spec: "bounded batches". *)
Fixpoint batches_aux {A} (fuel n : nat) (l : list A) : list (list A) :=
  match fuel with
  | 0 => []
  | S f =>
      match l with
      | [] => []
      | _ => take n l :: batches_aux f n (drop n l)
      end
  end.

(** Modelled from the spec: the batches of at most [n] entries, in
    order. *)
Definition batches {A} (n : nat) (l : list A) : list (list A) :=
  batches_aux (length l) n l.

(** Modelled from the spec: the text of each entry is replaced in
    place, "timing untouched"; a translation that does not have one
    text per entry is refused ("must not reorder or drop entries"). *)
Fixpoint replace_texts (doc : SubtitleDocument) (ts : list string)
    : option SubtitleDocument :=
  match doc, ts with
  | [], [] => Some []
  | e :: doc', t :: ts' =>
      match replace_texts doc' ts' with
      | Some d => Some (mkEntry (index e) (start e) (end_ e) t :: d)
      | None => None
      end
  | _, _ => None
  end.

(** Modelled from the spec: the batches are translated in order and
    the first failure fails the translation. *)
Fixpoint translate_all (b : Backend) (bs : list (list string))
    (lang : string) : option (list string) :=
  match bs with
  | [] => Some []
  | batch :: rest =>
      match translate_batch b batch lang with
      | Some ts =>
          match translate_all b rest lang with
          | Some ts' => Some (ts ++ ts')
          | None => None
          end
      | None => None
      end
  end.

(** Modelled from the spec: the common contract [translate] of a
    backend, on a whole document. *)
Definition translate (b : Backend) (doc : SubtitleDocument)
    (lang : string) : option SubtitleDocument :=
  match translate_all b (batches (batch_size sv) (text <$> doc)) lang with
  | Some ts => replace_texts doc ts
  | None => None
  end.

End Translation.

(** *** The runner *)

Section Runner.

Variable sv : Services.
Variable job : PipelineJob.

(** Modelled from the spec: the validation before [Pending] is left:
    "exactly one of source (URL) or local path must be present, and
    target_language must be a supported code". *)
Definition valid : bool :=
  xorb (bool_decide (is_Some (source_url job)))
       (bool_decide (is_Some (local_path job)))
  && bool_decide (target_language job ∈ supported sv).

(** Modelled from the spec: updates of the state of a run, one per
    field ([record] adds to the log). *)
Definition record (e : Event) (r : Run) : Run :=
  mkRun (status r) (checks r) (video r) (audio r) (original r) (texts r)
    (translated r) (e :: log r).

Definition set_status (s : JobStatus) (r : Run) : Run :=
  mkRun s (checks r) (video r) (audio r) (original r) (texts r)
    (translated r) (log r).

Definition set_video (v : string) (r : Run) : Run :=
  mkRun (status r) (checks r) v (audio r) (original r) (texts r)
    (translated r) (log r).

Definition set_audio (a : string) (r : Run) : Run :=
  mkRun (status r) (checks r) (video r) a (original r) (texts r)
    (translated r) (log r).

Definition set_original (d : SubtitleDocument) (r : Run) : Run :=
  mkRun (status r) (checks r) (video r) (audio r) d (texts r)
    (translated r) (log r).

Definition add_texts (ts : list string) (r : Run) : Run :=
  mkRun (status r) (checks r) (video r) (audio r) (original r)
    (texts r ++ ts) (translated r) (log r).

Definition set_translated (d : SubtitleDocument) (r : Run) : Run :=
  mkRun (status r) (checks r) (video r) (audio r) (original r) (texts r)
    d (log r).

(** Modelled from the spec: every exit path releases the temporary
    files, and "publishing is the last action a JobRunner performs". *)
Definition finish (s : JobStatus) (c : TerminalCommand) (r : Run) : Run :=
  set_status s (record (EvPublish c) (record EvCleanup r)).

(** Modelled from the spec: a stage error becomes "an Error terminal
    command carrying a human-readable message". *)
Definition fail (k : ErrorKind) (r : Run) : Run :=
  finish Failed (CmdError (message_of k)) r.

(** Modelled from the spec: the exit on an observed cancellation. *)
Definition cancel (r : Run) : Run := finish Cancelled CmdCancelled r.

(** Modelled from the spec: one read of the [CancellationToken]. *)
Definition check_token (r : Run) : bool * Run :=
  let b := cancel_requested sv (checks r) in
  (b, mkRun (status r) (S (checks r)) (video r) (audio r) (original r)
        (texts r) (translated r) (EvCheck (checks r) b :: log r)).

(** Modelled from the spec: "the runner checks the CancellationToken;
    if set, it stops immediately, performs cleanup, and reports
    Cancelled instead of continuing". *)
Definition boundary (next : Run → Run) (r : Run) : Run :=
  let '(b, r') := check_token r in
  if b then cancel r' else next r'.

(** Modelled from the spec: a transition of the state machine. *)
Definition enter (s : JobStatus) (r : Run) : Run :=
  set_status s (record (EvEnter s) r).

(** Modelled from the spec: the transition out of [Pending]. *)
Definition launch : Run :=
  boundary (enter Downloading) (mkRun Pending 0 "" "" [] [] [] []).

(** Modelled from the spec: stage [Downloading]: "if source is a URL,
    fetch the remote video to a local temporary file; if a local path
    was given, skip". *)
Definition downloading (r : Run) : Run :=
  match status r with
  | Downloading =>
      match match source_url job with
            | Some url => download sv url
            | None => local_path job
            end
      with
      | Some v => boundary (enter ExtractingAudio) (set_video v r)
      | None => fail DownloadError r
      end
  | _ => r
  end.

(** Modelled from the spec: stage [ExtractingAudio]. *)
Definition extracting (r : Run) : Run :=
  match status r with
  | ExtractingAudio =>
      match extract_audio sv (video r) with
      | Some a => boundary (enter Transcribing) (set_audio a r)
      | None => fail AudioExtractionError r
      end
  | _ => r
  end.

(** Modelled from the spec: stage [Transcribing]; "use_gpu honored
    only if the device probe reports availability". *)
Definition transcribing (r : Run) : Run :=
  match status r with
  | Transcribing =>
      match transcribe sv (audio r) (use_gpu job && cuda sv) with
      | Some d => boundary (enter Translating) (set_original d r)
      | None => fail TranscriptionError r
      end
  | _ => r
  end.

(** Modelled from the spec: the translation batch loop, with a check
    of the token before each batch. *)
Fixpoint translate_batches (bs : list (list string)) (r : Run) : Run :=
  match bs with
  | [] => r
  | batch :: rest =>
      match status r with
      | Translating =>
          let '(b, r') := check_token r in
          if b then cancel r'
          else
            match translate_batch sv (backend job) batch
                    (target_language job) with
            | Some ts =>
                translate_batches rest
                  (add_texts ts (record (EvBatch (length batch)) r'))
            | None => fail TranslationError r'
            end
      | _ => r
      end
  end.

(** Modelled from the spec: stage [Translating]; "no partial-subtitle
    output is accepted". *)
Definition translating (r : Run) : Run :=
  match status r with
  | Translating =>
      let r1 :=
        translate_batches (batches (batch_size sv) (text <$> original r))
          r in
      match status r1 with
      | Translating =>
          match replace_texts (original r1) (texts r1) with
          | Some d => boundary (enter Assembling) (set_translated d r1)
          | None => fail TranslationError r1
          end
      | _ => r1
      end
  | _ => r
  end.

(** Modelled from the spec: stage [Assembling], "then transition to
    Done". *)
Definition assembling (r : Run) : Run :=
  match status r with
  | Assembling =>
      match assemble sv (video r) (original r) (translated r) with
      | Some folder => boundary (finish Done (CmdDone folder)) r
      | None => fail AssemblyError r
      end
  | _ => r
  end.

(** Modelled from the spec: [JobRunner.run], the stages in order. *)
Definition run : Run :=
  assembling (translating (transcribing (extracting (downloading launch)))).

(** Modelled from the spec: what was put on the [CommandChannel],
    oldest first. *)
Definition published (r : Run) : list TerminalCommand :=
  omap (λ e, match e with EvPublish c => Some c | _ => None end)
    (reverse (log r)).

(** Modelled from the spec: [process_video]: an invalid job "fails
    fast with an InputError returned synchronously", a valid one is
    run. *)
Definition process_video : ErrorKind + Run :=
  if valid then inr run else inl InputError.

End Runner.

(** *** Invariants of a run *)

(** The predicates below are not part of the model; they state what
    holds of a run at every point. *)

Definition is_publish (e : Event) : bool :=
  match e with
  | EvPublish _ => true
  | _ => false
  end.

(** Nothing in [l] is a publication. *)
Definition unpublished (l : list Event) : Prop :=
  Forall (λ e, is_publish e = false) l.

(** Every entry into a stage and every translated batch comes directly
    after a read of the token that found it clear. *)
Fixpoint guarded (l : list Event) : bool :=
  match l with
  | [] => true
  | e :: rest =>
      match e with
      | EvEnter _ | EvBatch _ =>
          match rest with
          | EvCheck _ false :: _ => true
          | _ => false
          end
      | _ => true
      end && guarded rest
  end.

(** The first [n] reads of the token found it clear. *)
Definition clear (sv : Services) (n : nat) : Prop :=
  ∀ k, k < n → cancel_requested sv k = false.

(** The invariant of a run: stages are guarded; a run that is not over
    has published nothing and never saw the token set; a run that is over
    has published one command, as its last action, and that command fits
    the way it ended. *)
Definition Inv (sv : Services) (r : Run) : Prop :=
  guarded (log r) = true
  ∧ match status r with
    | Done =>
        clear sv (checks r)
        ∧ ∃ folder k pre,
            log r = EvPublish (CmdDone folder) :: EvCleanup
                    :: EvCheck k false :: pre
            ∧ unpublished pre
    | Failed =>
        clear sv (checks r)
        ∧ ∃ m pre,
            log r = EvPublish (CmdError m) :: EvCleanup :: pre
            ∧ unpublished pre
    | Cancelled =>
        ∃ k pre,
          log r = EvPublish CmdCancelled :: EvCleanup
                  :: EvCheck k true :: pre
          ∧ unpublished pre
          ∧ checks r = S k
          ∧ cancel_requested sv k = true
          ∧ clear sv k
    | _ => clear sv (checks r) ∧ unpublished (log r)
    end.

(** The invariant, for a run that is not over. *)
Definition live (sv : Services) (r : Run) : Prop :=
  terminal (status r) = false
  ∧ guarded (log r) = true
  ∧ clear sv (checks r)
  ∧ unpublished (log r).

(** The last thing the run did was a read of the token that found it
    clear. *)
Definition just_checked (r : Run) : Prop :=
  ∃ k pre, log r = EvCheck k false :: pre.

(** The run is in state [s], or it is over. *)
Definition reached (s : JobStatus) (r : Run) : Prop :=
  status r = s ∨ terminal (status r) = true.



End Pipeline.

(** ** Concrete inputs *)

Module Examples.
Import App Pipeline.

Definition env_quiet (cuda : bool) : Env := mkEnv cuda (λ _, false).

Definition widgets_empty_url : Widgets :=
  mkWidgets "" "deepl-key" "openai-key" "small" "FR - French" "DeepL" true.

Definition state_of (w : Widgets) : State :=
  mkState w (mkConfig "" "" "base") (mkConfig "" "" "base") None [].

Definition widgets_url : Widgets :=
  mkWidgets "https://host/video.mp4" "deepl-key" "openai-key" "small"
    "FR - French" "DeepL" true.

Definition widgets_local : Widgets :=
  mkWidgets "Fichier local: clip.mkv" "deepl-key" "openai-key" "small"
    "FR - French" "DeepL" true.

Definition widgets_other_language : Widgets :=
  mkWidgets "https://host/video.mp4" "deepl-key" "openai-key" "small"
    "XX" "DeepL" true.

Definition cmd_error : Cmd :=
  {[ "command" := "error"; "message" := "download failed" ]}.

Definition state_in_flight (q : list Cmd) : State :=
  mkState widgets_url (mkConfig "deepl-key" "openai-key" "small")
    (mkConfig "deepl-key" "openai-key" "small") (Some PwOpen) q.

Definition env_failing : Env :=
  mkEnv true (λ c, match c with
                   | progress_close | showinfo _ _ => true
                   | _ => false
                   end).

Definition cmd_done : Cmd :=
  {[ "command" := "processing_done"; "video_folder" := "output/video_1" ]}.

Definition french (t : string) : string := "fr: " +:+ t.

Definition demo_doc : SubtitleDocument :=
  [mkEntry 1 0 1500 "hello"; mkEntry 2 1500 3200 "good morning";
   mkEntry 3 3200 5000 "thank you"].

(** Services that all succeed; the token is set from its [set_at]-th
    read on. *)
Definition demo_services (set_at : nat) : Services :=
  mkServices ["FR"; "ES"]
    (λ url, Some "/tmp/video.mp4")
    (λ v, Some "/tmp/audio.wav")
    false
    (λ a gpu, Some demo_doc)
    (λ attempt batch lang,
       if attempt <? 1 then TransientFailure
       else Translated (french <$> batch))
    3
    (λ batch lang, Some (french <$> batch))
    2
    (λ v orig tr, Some "output/video_1")
    (λ k, bool_decide (set_at ≤ k)).

Definition demo_job (b : Backend) : PipelineJob :=
  mkJob (Some "https://host/video.mp4") None "FR" b false.

Definition local_job (b : Backend) : PipelineJob :=
  mkJob None (Some "/tmp/clip.mkv") "ES" b false.

End Examples.

(** ** Widgets, defaults and the log view *)

Module Gui.
Import App.

(** The entries of [COLORS] the two widget classes read. *)
Module COLORS.
Definition primary : string := "#3f51b5".
Definition primary_dark : string := "#303f9f".
Definition card_bg : string := "#ffffff".
Definition border : string := "#e0e0e0".
End COLORS.

(** An item of a tuple such as a font. *)
Inductive Item :=
| IStr (s : string)
| IInt (n : Z).

(** A value of a widget option: a string, an integer, a tuple (a font),
    or some other object (a callback, a parent widget). *)
Inductive Value :=
| VStr (s : string)
| VInt (n : Z)
| VTuple (items : list Item)
| VObject (id : nat).

(** The keyword arguments of a constructor: a Python dict. *)
Abbreviation Options := (gmap string Value).

(** [kwargs.get(k, d)] *)
Definition get (kwargs : Options) (k : string) (d : Value) : Value :=
  default d (kwargs !! k).

(** [class ModernButton(tk.Button)] *)
Module ModernButton.

(** The two attributes the class adds, and the options the underlying
    [tk.Button] holds. *)
Record Button := mkButton {
  bg_color : Value;
  hover_color : Value;
  options : Options
}.

(** [ModernButton.__init__(self, master=None, **kwargs)] *)
Definition __init__ (kwargs : Options) : Button :=
  let bg := get kwargs "bg" (VStr COLORS.primary) in
  let kwargs := delete "bg" kwargs in
  let hover := get kwargs "hover_color" (VStr COLORS.primary_dark) in
  let kwargs := delete "hover_color" kwargs in
  let bd := get kwargs "bd" (VInt 0) in
  let relief := get kwargs "relief" (VStr "flat") in
  let fg := get kwargs "fg" (VStr "white") in
  let activeforeground := get kwargs "activeforeground" (VStr "white") in
  let font := get kwargs "font" (VTuple [IStr "Segoe UI"; IInt 10]) in
  let kwargs :=
    <["font" := font]>
      (<["activeforeground" := activeforeground]>
         (<["fg" := fg]>
            (<["relief" := relief]>
               (<["bd" := bd]>
                  (<["activebackground" := hover]>
                     (<["bg" := bg]> kwargs)))))) in
  mkButton bg hover kwargs.

(** [self['bg'] = v] *)
Definition configure_bg (v : Value) (b : Button) : Button :=
  mkButton (bg_color b) (hover_color b) (<["bg" := v]> (options b)).

(** [ModernButton._on_enter(self, e)] *)
Definition _on_enter (b : Button) : Button := configure_bg (hover_color b) b.

(** [ModernButton._on_leave(self, e)] *)
Definition _on_leave (b : Button) : Button := configure_bg (bg_color b) b.

End ModernButton.

(** [class ModernFrame(tk.Frame)] *)
Module ModernFrame.

(** [ModernFrame.__init__(self, master=None, **kwargs)]: the options the
    underlying [tk.Frame] receives. *)
Definition __init__ (kwargs : Options) : Options :=
  let bg := get kwargs "bg" (VStr COLORS.card_bg) in
  let bd := get kwargs "bd" (VInt 1) in
  let relief := get kwargs "relief" (VStr "solid") in
  let highlightbackground :=
    get kwargs "highlightbackground" (VStr COLORS.border) in
  let highlightthickness := get kwargs "highlightthickness" (VInt 1) in
  let padx := get kwargs "padx" (VInt 15) in
  let pady := get kwargs "pady" (VInt 15) in
  <["pady" := pady]>
    (<["padx" := padx]>
       (<["highlightthickness" := highlightthickness]>
          (<["highlightbackground" := highlightbackground]>
             (<["relief" := relief]>
                (<["bd" := bd]>
                   (<["bg" := bg]> kwargs)))))).

End ModernFrame.

(** *** Default values and the resource estimate *)

(** The values of [whisper_model_combobox]. *)
Definition whisper_values : list string :=
  ["tiny"; "base"; "small"; "medium"; "large"; "large-v3-turbo"].

(** [self.model_resources]: for a model, its ["RAM"] and ["VRAM"]
    entries. *)
Definition model_resources : gmap string (string * string) :=
  list_to_map
    [("tiny", ("2GB", "1GB")); ("base", ("4GB", "2GB"));
     ("small", ("6GB", "3GB")); ("medium", ("10GB", "5GB"));
     ("large", ("16GB", "8GB")); ("large-v3-turbo", ("20GB", "10GB"))].

(** The text both [update_resource_info] and [_load_defaults] put on
    [resource_label] for a model. *)
Definition resource_text (model : string) : string :=
  let info := default ("?", "?") (model_resources !! model) in
  "Ressources estimées: RAM " +:+ info.1 +:+ " / VRAM " +:+ info.2.

(** The closure [update_resource_info] of [_create_advanced_section]: the
    new text of [resource_label]. *)
Definition update_resource_info (w : Widgets) : string :=
  resource_text (whisper_model_combobox w).

(** The two defaults [_load_defaults] reads from [config] besides the
    keys and the model. *)
Record Defaults := mkDefaults {
  default_language : string;
  default_service : string
}.

(** [entry.insert(0, s)] on an entry holding [text]. *)
Definition insert0 (s text : string) : string := s +:+ text.

(** [SRTTranslatorApp._load_defaults(self)], on the widgets and the text
    of [resource_label]. *)
Definition _load_defaults (cfg : Config) (d : Defaults) (w : Widgets)
    (resource_label : string) : Widgets * string :=
  let deepl := insert0 (deepl_key cfg) (deepl_key_entry w) in
  let openai := insert0 (openai_key cfg) (openai_key_entry w) in
  let language :=
    if negb (Py.truthy (language_combobox w)) then default_language d
    else language_combobox w in
  let service :=
    if negb (Py.truthy (service_combobox w)) then default_service d
    else service_combobox w in
  if negb (Py.truthy (whisper_model_combobox w)) then
    let model := whisper_model cfg in
    (mkWidgets (url_entry w) deepl openai model language service (gpu_var w),
     resource_text model)
  else
    (mkWidgets (url_entry w) deepl openai (whisper_model_combobox w) language
       service (gpu_var w),
     resource_label).

(** *** The log view *)

(** A record handed to [TextHandler.emit]: its level and message, the
    text of its traceback when it was logged with [exc_info] (what
    [formatException] gives) and its [stack_info]. *)
Record LogRecord := mkLogRecord {
  levelname : string;
  message : string;
  exc_text : option string;
  stack_info : option string
}.

(** [s[-1:] != '\n'], negated: the last character of [s] is a line
    feed. *)
Fixpoint ends_with_nl (s : string) : bool :=
  match s with
  | EmptyString => false
  | String c EmptyString => Stdlib.Strings.Ascii.eqb c "010"%char
  | String _ rest => ends_with_nl rest
  end.

(** [formatMessage] with the format ['[%(levelname)s] %(message)s'] the
    handler is given. *)
Definition formatMessage (r : LogRecord) : string :=
  "[" +:+ levelname r +:+ "] " +:+ message r.

(** The two steps of [logging.Formatter.format] that add a block of
    text, on a line of its own, when there is one. *)
Definition add_block (s : string) (block : option string) : string :=
  if Py.truthy_opt block then
    (if ends_with_nl s then s else s +:+ Msg.nl) +:+ default "" block
  else s.

(** [Handler.format(record)], which is [logging.Formatter.format]: the
    formatted message, then the traceback, then the stack. *)
Definition format (r : LogRecord) : string :=
  add_block (add_block (formatMessage r) (exc_text r)) (stack_info r).

(** [log_text]: its content, whether its state is ['normal'], and the
    texts of the [append] callbacks scheduled with [after(0, append)] and
    not yet run, oldest first. *)
Record TextWidget := mkTextWidget {
  content : string;
  normal : bool;
  scheduled : list string
}.

(** [text_widget.insert('end', s)]: Tk ignores it on a disabled widget. *)
Definition text_insert_end (s : string) (t : TextWidget) : TextWidget :=
  if normal t then mkTextWidget (content t +:+ s) (normal t) (scheduled t)
  else t.

(** [text_widget.configure(state=...)] *)
Definition text_configure (state_normal : bool) (t : TextWidget)
    : TextWidget :=
  mkTextWidget (content t) state_normal (scheduled t).

(** The closure [append] of [TextHandler.emit], for the message [msg];
    [see('end')] only scrolls. *)
Definition append (msg : string) (t : TextWidget) : TextWidget :=
  text_configure false
    (text_insert_end (msg +:+ String "010" "") (text_configure true t)).

(** [TextHandler.emit(self, record)] *)
Definition emit (r : LogRecord) (t : TextWidget) : TextWidget :=
  mkTextWidget (content t) (normal t) (scheduled t ++ [format r]).

(** The main loop runs the scheduled callbacks, oldest first. *)
Fixpoint run_callbacks (msgs : list string) (t : TextWidget) : TextWidget :=
  match msgs with
  | [] => t
  | msg :: rest => run_callbacks rest (append msg t)
  end.

Definition update_idle (t : TextWidget) : TextWidget :=
  run_callbacks (scheduled t)
    (mkTextWidget (content t) (normal t) []).

(** *** Centring a window *)

(** The position [_show_about] and [_show_help] compute for a window of
    [width] by [height] on a screen of [screenwidth] by [screenheight]. *)
Definition centre (screenwidth screenheight width height : Z) : Z * Z :=
  ((screenwidth / 2 - width / 2)%Z, (screenheight / 2 - height / 2)%Z).

End Gui.

(** ** Observations used in the further properties *)

Module Obs.
Import App.

(** The string holds a space. *)
Fixpoint has_space (s : string) : bool :=
  match s with
  | EmptyString => false
  | String c t => if Stdlib.Strings.Ascii.eqb c " "%char then true else has_space t
  end.

(** The calls that can raise: all but logging and the timer. *)
Definition fallible (c : Call) : bool :=
  match c with
  | log_info _ | log_error _ | root_after _ => false
  | _ => true
  end.

Definition is_save_config (c : Call) : bool :=
  match c with
  | save_config _ => true
  | _ => false
  end.

Definition is_progress_close (c : Call) : bool :=
  match c with
  | progress_close => true
  | _ => false
  end.

(** The state after [url_entry] was given the text [s]. *)
Definition with_url (st : State) (s : string) : State :=
  mkState
    (mkWidgets s (deepl_key_entry (widgets st)) (openai_key_entry (widgets st))
       (whisper_model_combobox (widgets st)) (language_combobox (widgets st))
       (service_combobox (widgets st)) (gpu_var (widgets st)))
    (config st) (api_client st) (progress_window st) (command_queue st).

(** The lines the log view gains for the messages [msgs]. *)
Fixpoint lines (msgs : list string) : string :=
  match msgs with
  | [] => ""
  | msg :: rest => msg +:+ String "010" "" +:+ lines rest
  end.

End Obs.

(** ** Further concrete inputs *)

Module MoreExamples.
Import App Gui.

(** A message with a tag the application does not know. *)
Definition cmd_progress : Cmd := {[ "command" := "progress"; "value" := "40" ]}.

Definition widgets_no_model : Widgets :=
  mkWidgets "https://host/video.mp4" "deepl-key" "openai-key" ""
    "FR - French" "DeepL" true.

(** The processor refuses every job. *)
Definition env_processor_down : Env :=
  mkEnv true (λ c, is_process_video c).

(** The options of the button "Parcourir". *)
Definition browse_kwargs : Options :=
  {[ "text" := VStr "Parcourir"; "command" := VObject 1;
     "font" := VTuple [IStr "Segoe UI"; IInt 10]; "padx" := VInt 10 ]}.

Definition widgets_fresh : Widgets := mkWidgets "" "" "" "" "" "" true.

End MoreExamples.

(** * Properties *)

Module PyFacts.
Import Py.

Lemma truthy_true s : truthy s = true ↔ s ≠ "".
Proof. destruct s; simpl; split; congruence. Qed.

Lemma truthy_false s : truthy s = false ↔ s = "".
Proof. destruct s; simpl; split; congruence. Qed.

Lemma truthy_opt_true v :
  truthy_opt v = true ↔ ∃ s, v = Some s ∧ s ≠ "".
Proof.
  destruct v as [s|]; simpl.
  - rewrite truthy_true. split; [eauto | intros (? & [= ->] & ?); done].
  - split; [done | intros (? & ? & ?); done].
Qed.

Lemma truthy_opt_false v :
  truthy_opt v = false ↔ v = None ∨ v = Some "".
Proof.
  destruct v as [s|]; simpl.
  - rewrite truthy_false. split; [intros ->; auto | intros [|[= ->]]; done].
  - split; auto.
Qed.

End PyFacts.

Module AppFacts.
Import App Examples.

(** Unfolds a method down to the calls it makes. *)
Ltac unfold_method :=
  cbv beta iota zeta delta
    [_process_video _select_local_file on_action url_entry_replace
     set_url_entry processor_update_api_client set_config
     set_progress_window progress_window_close
     bind ret get put modify raise when call
     result final trace fst snd
     widgets config api_client progress_window command_queue
     url_entry deepl_key_entry openai_key_entry whisper_model_combobox
     language_combobox service_combobox gpu_var].

(** Case analysis on what the environment and the inputs decide, in the
    order in which the method consults them. *)
Ltac branch :=
  repeat (simpl;
    match goal with
    | Hq : quiet ?e |- context [raises ?e ?c] => rewrite (Hq c)
    | |- context [raises ?e (save_api_keys ?c)] =>
        destruct (raises e (save_api_keys c)) eqn:?
    | |- context [Py.truthy ?s] => destruct (Py.truthy s) eqn:?
    | |- context [raises ?e (save_config ?c)] =>
        destruct (raises e (save_config c)) eqn:?
    | |- context [raises ?e (update_api_client ?c)] =>
        destruct (raises e (update_api_client c)) eqn:?
    | |- context [raises ?e (new_ProgressWindow ?c)] =>
        destruct (raises e (new_ProgressWindow c)) eqn:?
    | |- context [raises ?e ?c] => destruct (raises e c) eqn:?
    end); simpl.

Ltac in_trace :=
  let H := fresh "Hin" in
  intros H;
  repeat (apply elem_of_cons in H as [H|H]; [try discriminate H|]);
  try (by apply elem_of_nil in H).

(** [_process_video] never touches the queue of commands and never
    closes a progress window. *)
Lemma process_video_keeps_queue env st video_path :
  command_queue (final (_process_video env video_path st))
  = command_queue st.
Proof.
  destruct st as [[url dk ok wm lang svc gpu] c a pw q],
    video_path as [path|]; simpl.
  all: unfold_method; branch; reflexivity.
Qed.

(** C5: with an empty URL field and no local path, [_process_video]
    returns after the input warning; whatever the collaborators do, it
    creates no progress window and never calls [process_video] of the
    processor, so no job (worker, stage, command) exists for the call. *)
Theorem process_video_without_source env st video_path :
  url_entry (widgets st) = "" →
  Py.truthy_opt video_path = false →
  let out := _process_video env video_path st in
  starts_job (trace out) = false
  ∧ existsb is_new_ProgressWindow (trace out) = false
  ∧ progress_window (final out) = progress_window st
  ∧ command_queue (final out) = command_queue st
  ∧ (setup_raised (result out) = true
     ∨ last (trace out) = Some (showwarning Msg.input_error Msg.no_source)).
Proof.
  destruct st as [[url dk ok wm lang svc gpu] c a pw q]; simpl.
  intros -> Hpath. unfold_method. rewrite Hpath.
  branch; repeat split; auto.
Qed.

Lemma process_video_without_source_witness :
  last (trace (_process_video (env_quiet true) None
                 (state_of widgets_empty_url)))
  = Some (showwarning Msg.input_error Msg.no_source).
Proof.
  destruct (process_video_without_source (env_quiet true)
              (state_of widgets_empty_url) None)
    as (_ & _ & _ & _ & [H|H]); [reflexivity | reflexivity | | exact H].
  vm_compute in H. discriminate H.
Defined.

(** C6: the GPU flag handed to the processor is the conjunction of the
    check box and the CUDA probe; without CUDA it is [false]. *)
Theorem use_gpu_needs_cuda env st video_path u p l s g :
  process_video u p l s g ∈ trace (_process_video env video_path st) →
  g = gpu_var (widgets st) && is_cuda_available env
  ∧ (is_cuda_available env = false → g = false).
Proof.
  destruct st as [[url dk ok wm lang svc gpu0] c a pw q],
    video_path as [path|]; simpl.
  all: unfold_method; branch.
  all: in_trace.
  all: simplify_eq; split; [done | intros ->; apply andb_false_r].
Qed.

Lemma use_gpu_needs_cuda_witness :
  false = gpu_var widgets_url && is_cuda_available (env_quiet false)
  ∧ (is_cuda_available (env_quiet false) = false → false = false).
Proof.
  apply (use_gpu_needs_cuda (env_quiet false) (state_of widgets_url) None
           (Some "https://host/video.mp4") None "FR" "DeepL" false).
  vm_compute. do 6 right. left.
Defined.

(** C9: a call of [process_video] carries exactly one source.  A local
    path, when there is one, is passed alone, whatever the URL field
    holds; otherwise the non-empty URL field is passed alone. *)
Theorem process_video_one_source env st video_path u p l s g :
  process_video u p l s g ∈ trace (_process_video env video_path st) →
  (Py.truthy_opt video_path = true ∧ u = None ∧ p = video_path)
  ∨ (Py.truthy_opt video_path = false ∧ p = None
     ∧ u = Some (url_entry (widgets st)) ∧ url_entry (widgets st) ≠ "").
Proof.
  destruct st as [[url dk ok wm lang svc gpu0] c a pw q],
    video_path as [path|]; simpl.
  all: unfold_method; branch.
  all: in_trace.
  all: simplify_eq; first [by left | right; repeat split; try done].
  all: by apply PyFacts.truthy_true.
Qed.

Lemma process_video_one_source_witness :
  (Py.truthy_opt (Some "/tmp/clip.mkv") = true
   ∧ None = @None string ∧ Some "/tmp/clip.mkv" = Some "/tmp/clip.mkv")
  ∨ (Py.truthy_opt (Some "/tmp/clip.mkv") = false
     ∧ Some "/tmp/clip.mkv" = None
     ∧ None = Some (url_entry (widgets (state_of widgets_local)))
     ∧ url_entry (widgets (state_of widgets_local)) ≠ "").
Proof.
  apply (process_video_one_source (env_quiet true) (state_of widgets_local)
           (Some "/tmp/clip.mkv") None (Some "/tmp/clip.mkv") "FR" "DeepL"
           true).
  vm_compute. do 6 right. left.
Defined.

(** The two ways a user starts a job: picking a file passes the file
    alone, the start button passes the URL field alone. *)
Lemma on_action_one_source env st a u p l s g :
  process_video u p l s g ∈ trace (on_action env a st) →
  match a with
  | SelectLocalFile file_path => u = None ∧ p = Some file_path
  | StartProcessing =>
      p = None ∧ u = Some (url_entry (widgets st))
      ∧ url_entry (widgets st) ≠ ""
  end.
Proof.
  destruct st as [[url dk ok wm lang svc gpu0] c a0 pw q],
    a as [|file_path]; simpl.
  all: unfold_method; branch.
  all: in_trace.
  all: simplify_eq; repeat split; try done.
  all: by apply PyFacts.truthy_true.
Qed.

(** C8: whenever [_process_video] reaches [process_video], it has first
    written the two key fields into [config] and persisted them, then
    called [update_api_client], which leaves the processor with the
    configuration as just written. *)
Theorem api_client_refreshed_before_job env st video_path u p l s g :
  process_video u p l s g ∈ trace (_process_video env video_path st) →
  let out := _process_video env video_path st in
  let w := widgets st in
  ∃ saved snapshot t1 t2,
    trace out
    = save_api_keys saved :: t1 ++ update_api_client snapshot :: t2
      ++ [process_video u p l s g]
    ∧ starts_job t1 = false ∧ starts_job t2 = false
    ∧ deepl_key saved = deepl_key_entry w
    ∧ openai_key saved = openai_key_entry w
    ∧ snapshot
      = mkConfig (deepl_key_entry w) (openai_key_entry w)
          (if Py.truthy (whisper_model_combobox w)
           then whisper_model_combobox w else whisper_model (config st))
    ∧ config (final out) = snapshot
    ∧ api_client (final out) = snapshot.
Proof.
  destruct st as [[url dk ok wm lang svc gpu0] c a0 pw q],
    video_path as [path|]; simpl.
  all: unfold_method; branch.
  all: in_trace.
  all: simplify_eq.
  all: lazymatch goal with
       | |- ∃ _ _ _ _, [save_api_keys ?c1; update_api_client ?c2; ?a; ?b;
                        ?pv] = _ ∧ _ =>
           exists c1, c2, [], [a; b]
       | |- ∃ _ _ _ _, [save_api_keys ?c1; ?x; ?y; update_api_client ?c2;
                        ?a; ?b; ?pv] = _ ∧ _ =>
           exists c1, c2, [x; y], [a; b]
       end.
  all: repeat split; reflexivity.
Qed.

Lemma api_client_refreshed_before_job_witness :
  ∃ saved snapshot t1 t2,
    trace (_process_video (env_quiet true) None (state_of widgets_url))
    = save_api_keys saved :: t1 ++ update_api_client snapshot :: t2
      ++ [process_video (Some "https://host/video.mp4") None "FR" "DeepL"
            true]
    ∧ starts_job t1 = false ∧ starts_job t2 = false
    ∧ deepl_key saved = "deepl-key"
    ∧ openai_key saved = "openai-key"
    ∧ snapshot = mkConfig "deepl-key" "openai-key" "small"
    ∧ config (final (_process_video (env_quiet true) None
                       (state_of widgets_url))) = snapshot
    ∧ api_client (final (_process_video (env_quiet true) None
                           (state_of widgets_url))) = snapshot.
Proof.
  apply (api_client_refreshed_before_job (env_quiet true)
           (state_of widgets_url) None).
  vm_compute. do 6 right. left.
Defined.

(** After [_select_local_file] the URL field holds the name of the file
    and the path is passed as well: both are present, and the job is
    started. *)
Lemma both_sources_start_job :
  ¬ rejects_unless_exactly_one (env_quiet true) (state_of widgets_local)
      (Some "/tmp/clip.mkv").
Proof.
  unfold rejects_unless_exactly_one. intros H.
  specialize (H eq_refl). vm_compute in H. discriminate H.
Qed.

(** That input is the one the application itself produces when the user
    picks [/tmp/clip.mkv]: [_select_local_file] writes the name of the
    file into the URL field and passes the path. *)
Lemma select_local_file_has_both :
  let out := _select_local_file (env_quiet true) "/tmp/clip.mkv"
               (state_of widgets_url) in
  url_entry (widgets (final out)) = url_entry widgets_local
  ∧ last (trace out)
    = Some (process_video None (Some "/tmp/clip.mkv") "FR" "DeepL" true).
Proof. split; reflexivity. Qed.

(** A language code that is not among the offered ones, as a stored
    default can be, is passed on as well. *)
Lemma unsupported_language_starts_job :
  exactly_one_source_and_supported (state_of widgets_other_language) None
  = false
  ∧ last (trace (_process_video (env_quiet true) None
                   (state_of widgets_other_language)))
    = Some (process_video (Some "https://host/video.mp4") None "XX" "DeepL"
              true).
Proof. split; reflexivity. Qed.

(** C4, as the code has it: a job is started only if some source is
    present and the language code is not empty.  Otherwise
    [_process_video] returns after an input warning, without a progress
    window and without a call of [process_video].  An input with both a
    URL and a local path is accepted like any other with a source: the
    job is started, on the local path. *)
Theorem job_started_only_if_accepted env st video_path :
  let out := _process_video env video_path st in
  (accepted st video_path = false →
     starts_job (trace out) = false
     ∧ existsb is_new_ProgressWindow (trace out) = false
     ∧ progress_window (final out) = progress_window st
     ∧ (setup_raised (result out) = true
        ∨ ∃ m, last (trace out) = Some (showwarning Msg.input_error m)))
  ∧ (accepted st video_path = true → quiet env →
     last (trace out) = Some (job_call env st video_path)).
Proof.
  destruct st as [[url dk ok wm lang svc gpu0] c a0 pw q].
  unfold accepted, job_call, target_language_of; simpl.
  split.
  - destruct video_path as [path|]; simpl.
    all: unfold_method; branch; try discriminate.
    all: intros _; repeat split; eauto.
  - intros Hacc Hq.
    destruct video_path as [path|]; simpl in *.
    all: unfold_method; revert Hacc; branch; done.
Qed.

Lemma job_started_only_if_accepted_witness :
  (starts_job (trace (_process_video (env_quiet true) None
                        (state_of widgets_empty_url))) = false)
  ∧ last (trace (_process_video (env_quiet true)
                   (Some "/tmp/clip.mkv") (state_of widgets_local)))
    = Some (process_video None (Some "/tmp/clip.mkv") "FR" "DeepL" true).
Proof.
  split.
  - apply (job_started_only_if_accepted (env_quiet true)
             (state_of widgets_empty_url) None).
    reflexivity.
  - apply (job_started_only_if_accepted (env_quiet true)
             (state_of widgets_local) (Some "/tmp/clip.mkv")).
    + reflexivity.
    + intros c. reflexivity.
Defined.

Ltac unfold_handler :=
  cbv beta iota zeta delta
    [handler _handle_processing_done _handle_processing_cancelled
     _handle_processing_error progress_window_close set_progress_window
     try_except any_exception is_queue_empty
     bind ret get put modify raise call
     result final trace fst snd
     widgets config api_client progress_window command_queue].

Lemma handler_keeps_queue env o cmd st :
  command_queue (final (handler env o cmd st)) = command_queue st.
Proof.
  destruct st as [w c a [pw|] q], o; simpl.
  all: unfold_handler; branch; reflexivity.
Qed.

Lemma handler_shows_own_outcome env o cmd st o' :
  o' ∈ shown (trace (handler env o cmd st)) → o' = o.
Proof.
  destruct st as [w c a [pw|] q], o; simpl.
  all: unfold_handler; branch.
  all: unfold shown; simpl; in_trace; done.
Qed.

Lemma handler_closes_progress env o cmd st :
  is_Some (progress_window st) →
  head (trace (handler env o cmd st)) = Some progress_close
  ∧ (raises env progress_close = false →
     progress_window (final (handler env o cmd st)) = Some PwClosed).
Proof.
  destruct st as [w c a [pw|] q]; simpl; intros [? ?]; [|done].
  destruct o.
  all: unfold_handler; branch; split; done.
Qed.

Lemma handle_command_dispatch env cmd o :
  outcome_of_command cmd = Some o →
  _handle_command env cmd = handler env o cmd.
Proof.
  unfold outcome_of_command, _handle_command, handler.
  destruct (cmd !! "command") as [tag|]; [|done].
  repeat case_bool_decide; simplify_eq; try done.
  all: intros [= <-]; try done.
Qed.

Lemma handle_command_other env cmd :
  outcome_of_command cmd = None → _handle_command env cmd = ret tt.
Proof.
  unfold outcome_of_command, _handle_command, handler.
  destruct (cmd !! "command") as [tag|].
  - repeat case_bool_decide; simplify_eq; done.
  - done.
Qed.

Lemma get_nowait_empty st :
  command_queue st = [] → get_nowait st = (Raise QueueEmpty, st, []).
Proof. destruct st; simpl; intros ->; reflexivity. Qed.

Lemma check_commands_empty env st :
  command_queue st = [] →
  check_commands env st = (Ret tt, st, [root_after 100]).
Proof. destruct st; simpl; intros ->; reflexivity. Qed.

Lemma check_commands_cons env st cmd rest :
  command_queue st = cmd :: rest →
  let h := _handle_command env cmd (with_queue st rest) in
  check_commands env st
  = match result h with
    | Ret _ => (Ret tt, final h, trace h ++ [root_after 100])
    | Raise e =>
        if is_queue_empty e
        then (Ret tt, final h, trace h ++ [root_after 100])
        else (Ret tt, final h,
              trace h ++ [log_error Msg.log_listener_failed;
                          root_after 1000])
    end.
Proof.
  destruct st as [w c a pw q]; simpl; intros ->.
  unfold check_commands, try_except, bind, get_nowait, get, put, ret, call,
    with_queue, result, final, trace; simpl.
  destruct (_handle_command env cmd _) as [[[[]|e] st'] t]; simpl.
  - reflexivity.
  - destruct e; simpl; rewrite ?app_nil_r; reflexivity.
Qed.

(** The handlers swallow what [progress_window.close()] and the boxes
    raise; only the fallback box of [_handle_processing_done] can still
    raise, and never [queue.Empty]. *)
Lemma handle_command_raises env cmd st e :
  result (_handle_command env cmd st) = Raise e →
  is_queue_empty e = false.
Proof.
  destruct (outcome_of_command cmd) as [o|] eqn:Ho.
  - rewrite (handle_command_dispatch env cmd o Ho).
    destruct st as [w c a [pw|] q], o; simpl.
    all: unfold_handler; branch; intros [= <-]; done.
  - rewrite (handle_command_other env cmd Ho). done.
Qed.

Lemma handle_command_keeps_queue env cmd st :
  command_queue (final (_handle_command env cmd st)) = command_queue st.
Proof.
  destruct (outcome_of_command cmd) as [o|] eqn:Ho.
  - rewrite (handle_command_dispatch env cmd o Ho).
    apply handler_keeps_queue.
  - rewrite (handle_command_other env cmd Ho). done.
Qed.

Lemma handle_command_no_timer env cmd st :
  existsb is_root_after (trace (_handle_command env cmd st)) = false.
Proof.
  destruct (outcome_of_command cmd) as [o|] eqn:Ho.
  - rewrite (handle_command_dispatch env cmd o Ho).
    destruct st as [w c a [pw|] q], o; simpl.
    all: unfold_handler; branch; done.
  - rewrite (handle_command_other env cmd Ho). done.
Qed.

(** One run of [check_commands]: it returns, it has armed the timer
    exactly once, as its last call, and it has taken at most the first
    message from the queue. *)
Lemma check_commands_step env st :
  let out := check_commands env st in
  result out = Ret tt
  ∧ command_queue (final out) = tail (command_queue st)
  ∧ ∃ t ms, trace out = t ++ [root_after ms]
            ∧ existsb is_root_after t = false
            ∧ (ms = 100 ∨ ms = 1000).
Proof.
  destruct (command_queue st) as [|cmd rest] eqn:Hq.
  - rewrite (check_commands_empty env st Hq). simpl.
    split; [done | split; [exact Hq |]].
    exists (@nil Call), 100. auto.
  - rewrite (check_commands_cons env st cmd rest Hq). simpl.
    pose proof (handle_command_raises env cmd (with_queue st rest)) as Hr.
    pose proof (handle_command_keeps_queue env cmd (with_queue st rest)) as Hk.
    pose proof (handle_command_no_timer env cmd (with_queue st rest)) as Ht.
    destruct (_handle_command env cmd (with_queue st rest))
      as [[[[]|e] st'] t]; simpl in *.
    + split; [done | split; [exact Hk |]]. exists t, 100. auto.
    + rewrite (Hr e eq_refl). simpl. split; [done | split; [exact Hk |]].
      exists (t ++ [log_error Msg.log_listener_failed]), 1000.
      rewrite <- app_assoc. repeat split; auto.
      rewrite existsb_app, Ht. done.
Qed.

Lemma check_commands_scheduled env st :
  existsb is_root_after (trace (check_commands env st)) = true.
Proof.
  destruct (check_commands_step env st) as (_ & _ & t & ms & -> & _ & _).
  rewrite existsb_app. simpl. apply orb_true_r.
Qed.

(** The listener runs in every round, and after [n] rounds the first
    [n] messages have been taken from the queue. *)
Lemma listener_runs envs n st :
  (listener envs n true st).1.1 = n
  ∧ command_queue (listener envs n true st).1.2 = drop n (command_queue st).
Proof.
  revert envs st. induction n as [|n IH]; intros envs st; simpl.
  - rewrite drop_0. done.
  - rewrite check_commands_scheduled.
    destruct (check_commands_step (envs 0) st) as (_ & Hq & _).
    specialize (IH (λ i, envs (S i)) (final (check_commands (envs 0) st))).
    destruct (listener _ n true (final (check_commands (envs 0) st)))
      as [[k st'] t]; simpl in *.
    destruct IH as [-> ->]. rewrite Hq. split; [done|].
    destruct (command_queue st); simpl; [by rewrite drop_nil | done].
Qed.

Lemma shown_app t1 t2 : shown (t1 ++ t2) = shown t1 ++ shown t2.
Proof. apply omap_app. Qed.

Lemma handle_command_shows env cmd st o' :
  o' ∈ shown (trace (_handle_command env cmd st)) →
  outcome_of_command cmd = Some o'.
Proof.
  destruct (outcome_of_command cmd) as [o|] eqn:Ho.
  - rewrite (handle_command_dispatch env cmd o Ho).
    intros ->%handler_shows_own_outcome. done.
  - rewrite (handle_command_other env cmd Ho). by intros ?%elem_of_nil.
Qed.

(** A run of [check_commands] shows at most the outcome named by the
    first message of the queue. *)
Lemma check_commands_shows env st o' :
  o' ∈ shown (trace (check_commands env st)) →
  ∃ cmd, head (command_queue st) = Some cmd
         ∧ outcome_of_command cmd = Some o'.
Proof.
  destruct (command_queue st) as [|cmd rest] eqn:Hq.
  - rewrite (check_commands_empty env st Hq). by intros ?%elem_of_nil.
  - rewrite (check_commands_cons env st cmd rest Hq). simpl.
    pose proof (handle_command_shows env cmd (with_queue st rest) o') as Hs.
    destruct (_handle_command env cmd (with_queue st rest))
      as [[[[]|e] st'] t]; simpl in *.
    + rewrite shown_app, elem_of_app. intros [H|H%elem_of_nil]; eauto. done.
    + destruct (is_queue_empty e); simpl.
      all: rewrite shown_app, elem_of_app; intros [H|H%elem_of_nil]; eauto.
      all: done.
Qed.

Lemma listener_shows envs n b st o' :
  o' ∈ shown (listener envs n b st).2 →
  ∃ cmd, cmd ∈ command_queue st ∧ outcome_of_command cmd = Some o'.
Proof.
  revert envs b st. induction n as [|n IH]; intros envs b st; simpl.
  - by intros ?%elem_of_nil.
  - destruct b; simpl; [| by intros ?%elem_of_nil].
    specialize (IH (λ i, envs (S i))
                  (existsb is_root_after
                     (trace (check_commands (envs 0) st)))
                  (final (check_commands (envs 0) st))).
    destruct (check_commands_step (envs 0) st) as (_ & Hq & _).
    destruct (listener _ n _ (final (check_commands (envs 0) st)))
      as [[k st'] t]; simpl in *.
    rewrite shown_app, elem_of_app. intros [H|H].
    + apply check_commands_shows in H as (cmd & Hh & Ho).
      exists cmd. split; [| done].
      destruct (command_queue st); simplify_eq/=. left.
    + destruct (IH H) as (cmd & Hin & Ho). exists cmd. split; [| done].
      rewrite Hq in Hin. destruct (command_queue st); simpl in *; [done|].
      by right.
Qed.

Lemma one_terminal_same_outcome (q : list Cmd) cmd cmd' o o' :
  at_most_one_terminal q →
  cmd ∈ q → outcome_of_command cmd = Some o →
  cmd' ∈ q → outcome_of_command cmd' = Some o' →
  o' = o.
Proof.
  unfold at_most_one_terminal. intros Hlen Hin Ho Hin' Ho'.
  assert (cmd ∈ filter (λ c, is_terminal c = true) q) as H1.
  { apply list_elem_of_filter. unfold is_terminal. by rewrite Ho. }
  assert (cmd' ∈ filter (λ c, is_terminal c = true) q) as H2.
  { apply list_elem_of_filter. unfold is_terminal. by rewrite Ho'. }
  destruct (filter (λ c, is_terminal c = true) q) as [|x [|y l]];
    simpl in Hlen; [by apply elem_of_nil in H1 | | lia].
  apply list_elem_of_singleton in H1, H2. congruence.
Qed.

(** C7, as the claim states it, fails: the consumer keeps no record of
    what it has shown and the messages name no job, so a success that
    follows a failure on the queue is put before the user all the
    same. *)
Lemma done_shown_after_error :
  let out := listener (λ _, env_quiet true) 2 true
               (state_in_flight [cmd_error; cmd_done]) in
  out.2 = [progress_close;
           showerror Msg.error_title (Some "download failed");
           root_after 100;
           progress_close;
           new_ResultDialog Msg.done_title Msg.done_message
             (Some "output/video_1");
           result_dialog_show;
           root_after 100]
  ∧ shown out.2 = [OutcomeError; OutcomeDone; OutcomeDone]
  ∧ ¬ (∀ o', o' ∈ shown out.2 → o' = OutcomeError).
Proof.
  assert ((listener (λ _, env_quiet true) 2 true
             (state_in_flight [cmd_error; cmd_done])).2
          = [progress_close;
             showerror Msg.error_title (Some "download failed");
             root_after 100;
             progress_close;
             new_ResultDialog Msg.done_title Msg.done_message
               (Some "output/video_1");
             result_dialog_show;
             root_after 100]) as Ht by (vm_compute; reflexivity).
  cbv zeta. rewrite Ht.
  assert (shown [progress_close;
                 showerror Msg.error_title (Some "download failed");
                 root_after 100;
                 progress_close;
                 new_ResultDialog Msg.done_title Msg.done_message
                   (Some "output/video_1");
                 result_dialog_show;
                 root_after 100]
          = [OutcomeError; OutcomeDone; OutcomeDone]) as Hs
    by (vm_compute; reflexivity).
  rewrite Hs. split; [done|]. split; [done|].
  intros H. specialize (H OutcomeDone). discriminate H. right. left.
Qed.

(** C7: a terminal command is given to exactly the handler of its tag;
    that handler first closes the progress window and shows no outcome
    but its own.  The listener keeps no record of the outcomes it has
    shown: whatever it shows is the outcome of a message that was on the
    queue.  So, as long as the queue holds at most one terminal command,
    everything the listener ever shows is that one outcome, and no
    success is shown once a failure or a cancellation was handled. *)
Theorem terminal_outcomes_exclusive env envs st cmd o :
  outcome_of_command cmd = Some o →
  _handle_command env cmd = handler env o cmd
  ∧ (∀ st', is_Some (progress_window st') →
       head (trace (handler env o cmd st')) = Some progress_close
       ∧ (raises env progress_close = false →
          progress_window (final (handler env o cmd st')) = Some PwClosed))
  ∧ (∀ st' o', o' ∈ shown (trace (handler env o cmd st')) → o' = o)
  ∧ (∀ n o', o' ∈ shown (listener envs n true st).2 →
             ∃ cmd', cmd' ∈ command_queue st
                     ∧ outcome_of_command cmd' = Some o')
  ∧ (at_most_one_terminal (command_queue st) →
     cmd ∈ command_queue st →
     ∀ n o', o' ∈ shown (listener envs n true st).2 → o' = o).
Proof.
  intros Ho. split; [| split; [| split; [| split]]].
  - by apply handle_command_dispatch.
  - intros st' Hp. split; by apply handler_closes_progress.
  - intros st' o'. apply handler_shows_own_outcome.
  - intros n o'. apply listener_shows.
  - intros Hone Hin n o' (cmd' & Hin' & Ho')%listener_shows.
    exact (one_terminal_same_outcome _ cmd cmd' o o' Hone Hin Ho Hin' Ho').
Qed.

Lemma terminal_outcomes_exclusive_witness :
  _handle_command (env_quiet true) cmd_error
  = handler (env_quiet true) OutcomeError cmd_error
  ∧ ∀ n o', o' ∈ shown (listener (λ _, env_quiet true) n true
                          (state_in_flight [cmd_error])).2 →
            o' = OutcomeError.
Proof.
  destruct (terminal_outcomes_exclusive (env_quiet true)
              (λ _, env_quiet true) (state_in_flight [cmd_error]) cmd_error
              OutcomeError)
    as (Hd & _ & _ & _ & Hl).
  - reflexivity.
  - split; [exact Hd |]. apply Hl.
    + unfold at_most_one_terminal. vm_compute. lia.
    + left.
Defined.

(** C10: a poll never waits and never ends the listener.  On an empty
    queue [get_nowait] raises at once and the poll only re-arms the
    timer; every poll returns normally with the timer armed exactly
    once, as its last call; when the handling of a message raises, the
    message is gone from the queue, the error is logged and the timer is
    armed with the longer delay; so the listener runs in every round and
    the message at position [n] is handled in round [n + 1] whatever
    happened before. *)
Theorem command_listener_never_stops env envs st :
  (command_queue st = [] →
     get_nowait st = (Raise QueueEmpty, st, [])
     ∧ check_commands env st = (Ret tt, st, [root_after 100]))
  ∧ (result (check_commands env st) = Ret tt
     ∧ ∃ t ms, trace (check_commands env st) = t ++ [root_after ms]
               ∧ existsb is_root_after t = false
               ∧ (ms = 100 ∨ ms = 1000))
  ∧ (∀ cmd rest e,
       command_queue st = cmd :: rest →
       result (_handle_command env cmd (with_queue st rest)) = Raise e →
       command_queue (final (check_commands env st)) = rest
       ∧ trace (check_commands env st)
         = trace (_handle_command env cmd (with_queue st rest))
           ++ [log_error Msg.log_listener_failed; root_after 1000])
  ∧ (∀ n, (listener envs n true st).1.1 = n
          ∧ command_queue (listener envs n true st).1.2
            = drop n (command_queue st))
  ∧ (∀ n cmd,
       command_queue st !! n = Some cmd →
       let stn := (listener envs n true st).1.2 in
       let h := _handle_command env cmd
                  (with_queue stn (drop (S n) (command_queue st))) in
       final (check_commands env stn) = final h
       ∧ ∃ t, trace (check_commands env stn) = trace h ++ t).
Proof.
  split; [| split; [| split; [| split]]].
  - intros Hq. split; [by apply get_nowait_empty | by apply check_commands_empty].
  - by destruct (check_commands_step env st) as (Hr & _ & Ht).
  - intros cmd rest e Hq He. split.
    + destruct (check_commands_step env st) as (_ & Hk & _).
      by rewrite Hk, Hq.
    + rewrite (check_commands_cons env st cmd rest Hq). simpl.
      by rewrite He, (handle_command_raises env cmd _ e He).
  - intros n. apply listener_runs.
  - intros n cmd Hn. destruct (listener_runs envs n st) as [_ Hq].
    rewrite (drop_S _ _ _ Hn) in Hq. simpl.
    rewrite (check_commands_cons env _ _ _ Hq). simpl.
    repeat case_match; eauto.
Qed.

Lemma command_listener_never_stops_witness :
  check_commands (env_quiet true) (state_in_flight [])
  = (Ret tt, state_in_flight [], [root_after 100])
  ∧ last (trace (check_commands env_failing
                   (state_in_flight [cmd_done; cmd_error])))
    = Some (root_after 1000)
  ∧ command_queue (listener (λ _, env_failing) 2 true
                     (state_in_flight [cmd_done; cmd_error])).1.2 = [].
Proof.
  split; [| split].
  - apply (command_listener_never_stops (env_quiet true)
             (λ _, env_quiet true) (state_in_flight [])). reflexivity.
  - destruct (command_listener_never_stops env_failing (λ _, env_failing)
                (state_in_flight [cmd_done; cmd_error]))
      as (_ & _ & H & _).
    destruct (H cmd_done [cmd_error]
                (CallError (showinfo Msg.information
                   (Msg.done_fallback +:+ "output/video_1"))))
      as [_ ->]; reflexivity.
  - destruct (command_listener_never_stops env_failing (λ _, env_failing)
                (state_in_flight [cmd_done; cmd_error]))
      as (_ & _ & _ & H & _).
    destruct (H 2) as [_ ->]. reflexivity.
Defined.

End AppFacts.

Module PipelineFacts.
Import Pipeline Examples.

Section RunnerFacts.

Variable sv : Services.
Variable job : PipelineJob.

Lemma live_inv r : live sv r → Inv sv r.
Proof.
  unfold Inv, live. destruct (status r); simpl.
  all: intros (Ht & Hg & Hc & Hu); done.
Qed.

Lemma inv_live r : Inv sv r → terminal (status r) = false → live sv r.
Proof.
  unfold Inv, live. destruct (status r); simpl.
  all: intros [Hg H] Ht; try done; destruct H; done.
Qed.

Lemma live_ext r r' :
  status r' = status r → checks r' = checks r → log r' = log r →
  live sv r → live sv r'.
Proof. unfold live. intros -> -> ->. done. Qed.

Lemma finish_inv s c r :
  live sv r →
  match s, c with
  | Failed, CmdError _ => True
  | Done, CmdDone _ => just_checked r
  | _, _ => False
  end →
  Inv sv (finish s c r).
Proof.
  intros (Ht & Hg & Hc & Hu) Hs.
  destruct s, c; try done; split; simpl; try done.
  - destruct Hs as (k & pre & Hl). split; [done|].
    exists video_folder, k, pre. rewrite Hl in *.
    split; [done|]. by inversion Hu.
  - split; [done|]. eauto.
Qed.

Lemma fail_inv k r : live sv r → Inv sv (fail k r).
Proof. intros H. by apply finish_inv. Qed.

Lemma enter_live s r :
  terminal s = false → live sv r → just_checked r → live sv (enter s r).
Proof.
  intros Hs (Ht & Hg & Hc & Hu) (k & pre & Hl).
  repeat split; simpl; try done.
  - rewrite Hl in *. done.
  - constructor; done.
Qed.

(** What a boundary leads to: a cancelled run, or the continuation on a
    run that has just read a clear token. *)
Lemma boundary_cases (Q : Run → Prop) next r :
  live sv r →
  (∀ r', Inv sv r' → status r' = Cancelled → Q r') →
  (∀ r', live sv r' → just_checked r' → status r' = status r → Q (next r')) →
  Q (boundary sv next r).
Proof.
  intros (Ht & Hg & Hc & Hu) Hcancel Hnext.
  unfold boundary, check_token.
  destruct (cancel_requested sv (checks r)) eqn:Hk.
  - apply Hcancel; [| done]. split; simpl; [done|].
    exists (checks r), (log r). repeat split; done.
  - apply Hnext; simpl; try done.
    + repeat split; simpl; try done.
      * intros k Hlt. destruct (decide (k = checks r)) as [->|]; [done|].
        apply Hc. lia.
      * constructor; done.
    + by exists (checks r), (log r).
Qed.

(** Crossing the boundary into the state [s]. *)
Lemma cross_boundary s r :
  terminal s = false → live sv r →
  Inv sv (boundary sv (enter s) r) ∧ reached s (boundary sv (enter s) r).
Proof.
  intros Hs Hl. apply boundary_cases; [done | |].
  - intros r' Hi' Hs'. split; [done|]. right. by rewrite Hs'.
  - intros r' Hl' Hj _. split; [apply live_inv, enter_live; done | by left].
Qed.

Lemma launch_ok : Inv sv (launch sv) ∧ reached Downloading (launch sv).
Proof.
  unfold launch. apply cross_boundary; [done|].
  repeat split; try done.
  - intros k Hk. simpl in Hk. lia.
  - constructor.
Qed.

Lemma stay r s :
  Inv sv r → terminal (status r) = true → Inv sv r ∧ reached s r.
Proof. intros Hi Ht. split; [done | by right]. Qed.

(** The run is over: a stage leaves it as it is. *)
Ltac over r Ht :=
  let E := fresh "E" in
  destruct (status r) eqn:E; rewrite ?E in Ht; try done;
  (apply stay; [done | by rewrite E]).

(** The run is in the state of the stage: it is live there. *)
Ltac at_stage r Hi Hs Hl :=
  pose proof (inv_live r Hi) as Hl; rewrite Hs in *; specialize (Hl eq_refl).

Ltac cross Hl :=
  apply cross_boundary; [done | eapply live_ext; [..| exact Hl]; done].

Lemma downloading_ok r :
  Inv sv r → reached Downloading r →
  Inv sv (downloading sv job r)
  ∧ reached ExtractingAudio (downloading sv job r).
Proof.
  intros Hi [Hs|Ht]; unfold downloading; [| over r Ht].
  at_stage r Hi Hs Hl.
  destruct (match source_url job with
            | Some url => download sv url
            | None => local_path job
            end) as [v|]; [cross Hl |].
  split; [by apply fail_inv | by right].
Qed.

Lemma extracting_ok r :
  Inv sv r → reached ExtractingAudio r →
  Inv sv (extracting sv r) ∧ reached Transcribing (extracting sv r).
Proof.
  intros Hi [Hs|Ht]; unfold extracting; [| over r Ht].
  at_stage r Hi Hs Hl.
  destruct (extract_audio sv (video r)) as [a|]; [cross Hl |].
  split; [by apply fail_inv | by right].
Qed.

Lemma transcribing_ok r :
  Inv sv r → reached Transcribing r →
  Inv sv (transcribing sv job r)
  ∧ reached Translating (transcribing sv job r).
Proof.
  intros Hi [Hs|Ht]; unfold transcribing; [| over r Ht].
  at_stage r Hi Hs Hl.
  destruct (transcribe sv (audio r) (use_gpu job && cuda sv)) as [d|];
    [cross Hl |].
  split; [by apply fail_inv | by right].
Qed.

Lemma translate_batches_cons batch rest r :
  status r = Translating →
  translate_batches sv job (batch :: rest) r
  = boundary sv
      (λ r', match translate_batch sv (backend job) batch
                     (target_language job) with
             | Some ts =>
                 translate_batches sv job rest
                   (add_texts ts (record (EvBatch (length batch)) r'))
             | None => fail TranslationError r'
             end) r.
Proof.
  intros Hs. unfold boundary, check_token. simpl. rewrite Hs. reflexivity.
Qed.

Lemma translate_batches_ok bs r :
  Inv sv r → reached Translating r →
  Inv sv (translate_batches sv job bs r)
  ∧ reached Translating (translate_batches sv job bs r).
Proof.
  revert r. induction bs as [|batch rest IH]; intros r Hi Hr; [done|].
  destruct Hr as [Hs|Ht]; [| simpl; over r Ht].
  pose proof (inv_live r Hi) as Hl.
  rewrite (translate_batches_cons batch rest r Hs).
  rewrite Hs in Hl. specialize (Hl eq_refl).
  apply boundary_cases; [done | |].
  - intros r' Hi' Hs'. split; [done|]. right. by rewrite Hs'.
  - intros r' Hl' (k & pre & Hj) Hs'.
    destruct (translate_batch sv (backend job) batch (target_language job)).
    + apply IH.
      * apply live_inv. destruct Hl' as (Ht' & Hg' & Hc' & Hu').
        repeat split; simpl; try done.
        -- rewrite Hj in *. done.
        -- constructor; done.
      * left. simpl. congruence.
    + split; [by apply fail_inv | by right].
Qed.

Lemma translating_ok r :
  Inv sv r → reached Translating r →
  Inv sv (translating sv job r) ∧ reached Assembling (translating sv job r).
Proof.
  intros Hi Hr. unfold translating.
  destruct (translate_batches_ok
              (batches (batch_size sv) (text <$> original r)) r Hi Hr)
    as [Hi1 Hr1].
  destruct Hr as [Hs|Ht]; [| over r Ht].
  rewrite Hs.
  set (r1 := translate_batches sv job _ r) in *.
  destruct Hr1 as [Hs1|Ht1]; [| over r1 Ht1].
  at_stage r1 Hi1 Hs1 Hl.
  destruct (replace_texts (original r1) (texts r1)) as [d|]; [cross Hl |].
  split; [by apply fail_inv | by right].
Qed.

Lemma assembling_ok r :
  Inv sv r → reached Assembling r →
  Inv sv (assembling sv r) ∧ terminal (status (assembling sv r)) = true.
Proof.
  intros Hi [Hs|Ht]; unfold assembling.
  - at_stage r Hi Hs Hl.
    destruct (assemble sv (video r) (original r) (translated r)) as [f|].
    + apply boundary_cases; [done | |].
      * intros r' Hi' Hs'. split; [done|]. by rewrite Hs'.
      * intros r' Hl' Hj _. split; [|done]. by apply finish_inv.
    + split; [by apply fail_inv | done].
  - destruct (status r) eqn:E; rewrite ?E in Ht; try done.
    all: by rewrite E.
Qed.

Lemma run_inv : Inv sv (run sv job) ∧ terminal (status (run sv job)) = true.
Proof.
  unfold run.
  destruct launch_ok as [H0 R0].
  destruct (downloading_ok _ H0 R0) as [H1 R1].
  destruct (extracting_ok _ H1 R1) as [H2 R2].
  destruct (transcribing_ok _ H2 R2) as [H3 R3].
  destruct (translating_ok _ H3 R3) as [H4 R4].
  exact (assembling_ok _ H4 R4).
Qed.

Lemma unpublished_omap l :
  unpublished l →
  omap (λ e, match e with EvPublish c => Some c | _ => None end) l = [].
Proof.
  induction 1 as [|e l He _ IH]; [done|].
  destruct e; simpl in *; try done.
Qed.

Lemma published_last r c pre :
  log r = EvPublish c :: pre → unpublished pre → published r = [c].
Proof.
  intros Hl Hu. unfold published. rewrite Hl, reverse_cons, omap_app.
  rewrite unpublished_omap; [done|]. by apply Forall_reverse.
Qed.

(** C1: a valid job is run to a terminal state; its log starts (newest
    first) with the one command it published, and nothing was published
    before. *)
Theorem exactly_one_terminal_command :
  valid sv job = true →
  ∃ r c pre,
    process_video sv job = inr r
    ∧ terminal (status r) = true
    ∧ log r = EvPublish c :: pre
    ∧ unpublished pre
    ∧ published r = [c]
    ∧ status r = match c with
                 | CmdDone _ => Done
                 | CmdCancelled => Cancelled
                 | CmdError _ => Failed
                 end.
Proof.
  intros Hv. unfold process_video. rewrite Hv.
  destruct run_inv as [[Hg Hi] Ht].
  exists (run sv job).
  destruct (status (run sv job)) eqn:Hs; try done.
  - destruct Hi as (_ & f & k & pre & Hl & Hu).
    assert (unpublished (EvCleanup :: EvCheck k false :: pre)) as Hu'
      by (repeat constructor; done).
    exists (CmdDone f), (EvCleanup :: EvCheck k false :: pre).
    repeat split; try done. exact (published_last _ _ _ Hl Hu').
  - destruct Hi as (k & pre & Hl & Hu & _).
    assert (unpublished (EvCleanup :: EvCheck k true :: pre)) as Hu'
      by (repeat constructor; done).
    exists CmdCancelled, (EvCleanup :: EvCheck k true :: pre).
    repeat split; try done. exact (published_last _ _ _ Hl Hu').
  - destruct Hi as (_ & m & pre & Hl & Hu).
    assert (unpublished (EvCleanup :: pre)) as Hu'
      by (repeat constructor; done).
    exists (CmdError m), (EvCleanup :: pre).
    repeat split; try done. exact (published_last _ _ _ Hl Hu').
Qed.

(** An invalid job never reaches the runner. *)
Lemma invalid_job_rejected :
  valid sv job = false → process_video sv job = inl InputError.
Proof. intros Hv. unfold process_video. by rewrite Hv. Qed.













(** A run that ends in [Done] never saw the token set. *)
Lemma done_never_saw_request :
  status (run sv job) = Done → clear sv (checks (run sv job)).
Proof.
  intros Hs. destruct run_inv as [[Hg Hi] Ht]. rewrite Hs in Hi.
  by destruct Hi.
Qed.
End RunnerFacts.

Section TranslationFacts.

Variable sv : Services.

(** The fuel of [batches] is enough: the batches of a list, one after
    the other, are the list. *)
Lemma batches_aux_concat {A} fuel n (l : list A) :
  0 < n → length l ≤ fuel → concat (batches_aux fuel n l) = l.
Proof.
  intros Hn. revert l. induction fuel as [|fuel IH]; intros l Hl.
  - destruct l; simpl in *; [done | lia].
  - destruct l as [|x l']; [done|].
    cbn [batches_aux concat]. rewrite IH.
    + apply take_drop.
    + rewrite length_drop. simpl in *. lia.
Qed.

Lemma batches_concat {A} n (l : list A) :
  0 < n → concat (batches n l) = l.
Proof. intros Hn. by apply batches_aux_concat. Qed.

Lemma replace_texts_length doc ts doc' :
  replace_texts doc ts = Some doc' →
  length doc' = length doc ∧ length ts = length doc.
Proof.
  revert ts doc'. induction doc as [|e doc IH]; intros [|t ts] doc' H;
    simplify_eq/=; [done|].
  destruct (replace_texts doc ts) as [d|] eqn:Hd; simplify_eq/=.
  destruct (IH ts d Hd) as [-> ->]. done.
Qed.

Lemma replace_texts_lookup doc ts doc' i e :
  replace_texts doc ts = Some doc' →
  doc !! i = Some e →
  ∃ t, ts !! i = Some t
       ∧ doc' !! i = Some (mkEntry (index e) (start e) (end_ e) t).
Proof.
  revert ts doc' i. induction doc as [|e0 doc IH]; intros [|t ts] doc' i H He;
    simplify_eq/=.
  destruct (replace_texts doc ts) as [d|] eqn:Hd; simplify_eq/=.
  destruct i as [|i]; simplify_eq/=; eauto.
Qed.

(** C2: whichever backend translated it, the translated document has as
    many entries as the original and, position by position, the same
    index and the same start and end; only the text is new. *)
Theorem translate_keeps_structure b doc lang doc' :
  translate sv b doc lang = Some doc' →
  length doc' = length doc
  ∧ ∀ i e, doc !! i = Some e →
      ∃ e', doc' !! i = Some e'
            ∧ index e' = index e
            ∧ start e' = start e
            ∧ end_ e' = end_ e.
Proof.
  unfold translate.
  destruct (translate_all sv b _ lang) as [ts|]; [|done].
  intros H. split.
  - by destruct (replace_texts_length _ _ _ H).
  - intros i e He.
    destruct (replace_texts_lookup _ _ _ i e H He) as (t & _ & ->).
    eauto.
Qed.

End TranslationFacts.

Lemma translate_keeps_structure_witness :
  length [mkEntry 1 0 1500 (french "hello");
          mkEntry 2 1500 3200 (french "good morning");
          mkEntry 3 3200 5000 (french "thank you")] = length demo_doc.
Proof.
  apply (translate_keeps_structure (demo_services 100) NeuralMT demo_doc
           "FR").
  vm_compute. reflexivity.
Defined.

Lemma exactly_one_terminal_command_witness :
  ∃ r c pre,
    process_video (demo_services 100) (demo_job NeuralMT) = inr r
    ∧ terminal (status r) = true
    ∧ log r = EvPublish c :: pre
    ∧ unpublished pre
    ∧ published r = [c]
    ∧ status r = match c with
                 | CmdDone _ => Done
                 | CmdCancelled => Cancelled
                 | CmdError _ => Failed
                 end.
Proof.
  apply (exactly_one_terminal_command (demo_services 100)
           (demo_job NeuralMT)).
  vm_compute. reflexivity.
Defined.


(** Scenario B of the spec: the token is set during [Transcribing]. *)
Example scenario_b :
  published (run (demo_services 3) (local_job ChatCompletion))
  = [CmdCancelled]
  ∧ checks (run (demo_services 3) (local_job ChatCompletion)) = 4.
Proof. vm_compute. split; reflexivity. Qed.

(** On the demonstration job a full run reads the token eight times;
    set at any of these reads it gives [Cancelled], set later [Done]. *)
Example cancelled_at_every_read :
  Forall (λ k, published (run (demo_services k) (demo_job NeuralMT))
               = [CmdCancelled]) (seq 0 8)
  ∧ published (run (demo_services 8) (demo_job NeuralMT))
    = [CmdDone "output/video_1"].
Proof.
  split; [| vm_compute; reflexivity].
  repeat (constructor; [vm_compute; reflexivity |]). constructor.
Qed.

Example demo_run_done :
  published (run (demo_services 100) (demo_job NeuralMT))
  = [CmdDone "output/video_1"].
Proof. vm_compute. reflexivity. Qed.

End PipelineFacts.

(** * Further properties of the application *)

Module PyMore.
Import Py Obs.

Lemma app_cons c s t : String c s +:+ t = String c (s +:+ t).
Proof. reflexivity. Qed.

Lemma app_empty_r s : s +:+ "" = s.
Proof. induction s as [|c s IH]; [done|]. by rewrite app_cons, IH. Qed.

Lemma app_empty_l s : "" +:+ s = s.
Proof. reflexivity. Qed.

(** X1: the language check of [_process_video] fails exactly for an empty
    selection and for one that starts with the separator. *)
Theorem split_head_empty s :
  truthy (split_head " - " s) = false
  ↔ s = "" ∨ Stdlib.Strings.String.prefix " - " s = true.
Proof.
  destruct s as [|c t].
  - simpl. split; auto.
  - cbn [split_head].
    destruct (Stdlib.Strings.String.prefix " - " (String c t)); simpl.
    + split; auto.
    + split; [done | intros [|]; done].
Qed.

Lemma split_head_empty_witness :
  truthy (split_head " - " " - French") = false.
Proof. apply split_head_empty. right. reflexivity. Defined.

Lemma prefix_empty s : Stdlib.Strings.String.prefix "" s = true.
Proof. by destruct s. Qed.

Lemma prefix_same a s1 s2 :
  Stdlib.Strings.String.prefix (String a s1) (String a s2)
  = Stdlib.Strings.String.prefix s1 s2.
Proof. simpl. by destruct (ascii_dec a a). Qed.

Lemma prefix_other a b s1 s2 :
  a ≠ b → Stdlib.Strings.String.prefix (String a s1) (String b s2) = false.
Proof. intros Hab. simpl. by destruct (ascii_dec a b). Qed.

Lemma split_head_at_sep name : split_head " - " (" - " +:+ name) = "".
Proof.
  change (" - " +:+ name) with (String " " (String "-" (String " " name))).
  cbn [split_head]. by rewrite !prefix_same, prefix_empty.
Qed.

(** X2: round trip of the combo box format: the code of ["<code> - <name>"]
    is recovered, as long as the code holds no space. *)
Theorem split_head_code code name :
  has_space code = false →
  split_head " - " (code +:+ " - " +:+ name) = code.
Proof.
  induction code as [|c code IH]; intros Hs.
  - apply split_head_at_sep.
  - simpl in Hs.
    destruct (Stdlib.Strings.Ascii.eqb_spec c " "%char) as [|Hc]; [done|].
    rewrite app_cons. cbn [split_head].
    rewrite prefix_other by done. by rewrite IH.
Qed.

Lemma split_head_code_witness :
  split_head " - " ("FR" +:+ " - " +:+ "French") = "FR".
Proof. apply split_head_code. reflexivity. Defined.

Lemma has_slash_app_slash d name : has_slash (d +:+ "/" +:+ name) = true.
Proof.
  induction d as [|c d IH]; [done|].
  rewrite app_cons. simpl. by destruct (Stdlib.Strings.Ascii.eqb c "/").
Qed.

Lemma basename_no_slash p : has_slash (basename p) = false.
Proof.
  induction p as [|c t IH]; [done|].
  cbn [basename]. destruct (has_slash t) eqn:Ht; [done|].
  destruct (Stdlib.Strings.Ascii.eqb c "/") eqn:Hc; [done|].
  simpl. by rewrite Hc.
Qed.

Lemma basename_join d name :
  has_slash name = false → basename (d +:+ "/" +:+ name) = name.
Proof.
  intros Hn. induction d as [|c d IH].
  - change ("" +:+ "/" +:+ name) with (String "/" name).
    cbn [basename]. by rewrite Hn.
  - rewrite app_cons. cbn [basename]. by rewrite has_slash_app_slash.
Qed.

(** X3: the name [_select_local_file] and the log show for a path: it
    never holds a directory separator, and for a directory joined with a
    plain file name it is that file name. *)
Theorem basename_spec p d name :
  has_slash (basename p) = false
  ∧ (has_slash name = false → basename (d +:+ "/" +:+ name) = name).
Proof. split; [apply basename_no_slash | apply basename_join]. Qed.

Lemma basename_spec_witness :
  basename ("/tmp" +:+ "/" +:+ "clip.mkv") = "clip.mkv".
Proof. apply (basename_spec "" "/tmp" "clip.mkv"). reflexivity. Defined.

End PyMore.

Module AppMore.
Import App Examples MoreExamples AppFacts Obs.

(** X4: a message without a known tag is dropped. *)
Theorem unknown_command_dropped env st cmd rest :
  outcome_of_command cmd = None →
  _handle_command env cmd st = (Ret tt, st, [])
  ∧ (command_queue st = cmd :: rest →
     check_commands env st = (Ret tt, with_queue st rest, [root_after 100])).
Proof.
  intros Ho. rewrite (handle_command_other env cmd Ho). split; [done|].
  intros Hq. rewrite (check_commands_cons env st cmd rest Hq).
  rewrite (handle_command_other env cmd Ho). reflexivity.
Qed.

Lemma unknown_command_dropped_witness :
  _handle_command (env_quiet true) cmd_progress (state_in_flight [])
  = (Ret tt, state_in_flight [], [])
  ∧ _handle_command (env_quiet true) ∅ (state_in_flight [])
    = (Ret tt, state_in_flight [], []).
Proof.
  split.
  - apply (unknown_command_dropped (env_quiet true) (state_in_flight [])
             cmd_progress []). reflexivity.
  - apply (unknown_command_dropped (env_quiet true) (state_in_flight [])
             ∅ []). reflexivity.
Defined.

(** X5: the handlers of a cancellation and of an error never raise; when
    the progress window cannot be closed they show nothing. *)
Theorem failure_handlers_swallow env st message :
  result (_handle_processing_cancelled env st) = Ret tt
  ∧ result (_handle_processing_error env message st) = Ret tt
  ∧ (progress_window st = None ∨ raises env progress_close = true →
     shown (trace (_handle_processing_cancelled env st)) = []
     ∧ shown (trace (_handle_processing_error env message st)) = []
     ∧ last (trace (_handle_processing_cancelled env st))
       = Some (log_error Msg.log_cancel_failed)
     ∧ last (trace (_handle_processing_error env message st))
       = Some (log_error Msg.log_error_failed)).
Proof.
  destruct st as [w c a [pw|] q]; simpl.
  all: unfold_handler; branch.
  all: (split; [done | split; [done |]]).
  all: intros [?|?]; try done; repeat split; done.
Qed.

Lemma failure_handlers_swallow_witness :
  shown (trace (_handle_processing_error (env_quiet true) (Some "boom")
                  (state_of widgets_url))) = [].
Proof.
  apply (failure_handlers_swallow (env_quiet true) (state_of widgets_url)
           (Some "boom")).
  left. reflexivity.
Defined.

(** X6: the handler of a success always puts the success before the user:
    with the result dialog, or with the fallback box that names the
    folder. *)
Theorem done_always_announced env st video_folder :
  let out := _handle_processing_done env video_folder st in
  OutcomeDone ∈ shown (trace out)
  ∧ (trace out
     = [progress_close;
        new_ResultDialog Msg.done_title Msg.done_message video_folder;
        result_dialog_show]
     ∨ last (trace out)
       = Some (showinfo Msg.information
                 (Msg.done_fallback +:+ fstr video_folder)))
  ∧ (∀ e, result out = Raise e →
          e = CallError (showinfo Msg.information
                           (Msg.done_fallback +:+ fstr video_folder))).
Proof.
  destruct st as [w c a [pw|] q]; simpl.
  all: unfold_handler; branch; repeat split; auto.
  all: try (intros e [= <-]; done); try done.
  all: unfold shown; simpl; rewrite ?elem_of_cons; auto.
Qed.

Lemma done_always_announced_witness :
  result (_handle_processing_done env_failing (Some "output/video_1")
            (state_in_flight []))
  = Raise (CallError (showinfo Msg.information
                        (Msg.done_fallback +:+ "output/video_1"))).
Proof.
  destruct (done_always_announced env_failing (state_in_flight [])
              (Some "output/video_1")) as (_ & _ & H).
  destruct (_handle_processing_done env_failing (Some "output/video_1")
              (state_in_flight [])) as [[[[]|e] st'] t] eqn:E.
  - vm_compute in E. discriminate E.
  - rewrite (H e eq_refl). reflexivity.
Defined.

Lemma select_local_file_unfold env st file_path :
  Py.truthy file_path = true →
  let run := _process_video env (Some file_path)
               (with_url st (Msg.local_prefix +:+ Py.basename file_path)) in
  _select_local_file env file_path st
  = (result run, final run,
     (log_info (Msg.log_selected +:+ file_path) :: trace run)).
Proof.
  intros Hp. unfold _select_local_file, when. rewrite Hp.
  unfold bind, url_entry_replace, set_url_entry, modify, call, with_url.
  simpl.
  match goal with |- context [_process_video env ?v ?s] =>
    destruct (_process_video env v s) as [[[[]|e] st'] t] end.
  all: reflexivity.
Qed.

(** X7: picking a file.  A dismissed dialog changes nothing.  Otherwise
    the URL field shows the name of the file, the warning for a missing
    source is never shown, and a job that is started gets the full path
    and no URL. *)
Theorem select_local_file_runs env st file_path :
  let out := _select_local_file env file_path st in
  (file_path = "" → out = (Ret tt, st, []))
  ∧ (file_path ≠ "" →
     url_entry (widgets (final out))
     = (Msg.local_prefix +:+ Py.basename file_path)
     ∧ (showwarning Msg.input_error Msg.no_source ∉ trace out)
     ∧ ∀ u p l s g, process_video u p l s g ∈ trace out →
                    u = None ∧ p = Some file_path).
Proof.
  split.
  - intros ->. reflexivity.
  - intros Hp%PyFacts.truthy_true. split; [| split].
    + rewrite (select_local_file_unfold env st file_path Hp).
      destruct st as [[url dk ok wm lang svc gpu0] c a0 pw q].
      unfold with_url; simpl. unfold_method. branch; done.
    + rewrite (select_local_file_unfold env st file_path Hp).
      destruct st as [[url dk ok wm lang svc gpu0] c a0 pw q].
      unfold with_url; simpl. unfold_method. branch.
      all: try congruence.
      all: in_trace.
    + intros u p l s g Hin.
      exact (on_action_one_source env st (SelectLocalFile file_path)
               u p l s g Hin).
Qed.

Lemma select_local_file_runs_witness :
  url_entry (widgets (final (_select_local_file (env_quiet true)
                               "/tmp/clip.mkv" (state_of widgets_url))))
  = Msg.local_prefix +:+ "clip.mkv".
Proof.
  apply (select_local_file_runs (env_quiet true) (state_of widgets_url)
           "/tmp/clip.mkv").
  discriminate.
Defined.

(** X8: the entered keys are stored before the input is looked at: every
    run of [_process_video], accepted or not, starts by saving a
    configuration that holds them, and leaves them in [config]. *)
Theorem keys_saved_first env st video_path :
  let out := _process_video env video_path st in
  let w := widgets st in
  head (trace out)
  = Some (save_api_keys (mkConfig (deepl_key_entry w) (openai_key_entry w)
                           (whisper_model (config st))))
  ∧ deepl_key (config (final out)) = deepl_key_entry w
  ∧ openai_key (config (final out)) = openai_key_entry w.
Proof.
  destruct st as [[url dk ok wm lang svc gpu0] c a0 pw q],
    video_path as [path|]; simpl.
  all: unfold_method; branch; done.
Qed.

(** X9: without a selected model the stored model is kept and the
    configuration file is not written. *)
Theorem no_model_no_save env st video_path :
  whisper_model_combobox (widgets st) = "" →
  let out := _process_video env video_path st in
  whisper_model (config (final out)) = whisper_model (config st)
  ∧ existsb is_save_config (trace out) = false.
Proof.
  destruct st as [[url dk ok wm lang svc gpu0] c a0 pw q]; simpl.
  intros ->. destruct video_path as [path|]; simpl.
  all: unfold_method; branch; done.
Qed.

Lemma no_model_no_save_witness :
  whisper_model (config (final (_process_video (env_quiet true) None
                                  (state_of widgets_no_model)))) = "base".
Proof.
  apply (no_model_no_save (env_quiet true) (state_of widgets_no_model) None).
  reflexivity.
Defined.

(** X10: [_process_video] stops at the first call that raises and lets the
    exception through: a run that raises ends with the call that raised,
    a run that returns made no call that raised. *)
Theorem process_video_stops_at_failure env st video_path :
  let out := _process_video env video_path st in
  match result out with
  | Raise e =>
      ∃ c, e = CallError c ∧ raises env c = true
           ∧ last (trace out) = Some c
  | Ret _ => ∀ c, c ∈ trace out → fallible c = true → raises env c = false
  end.
Proof.
  destruct st as [[url dk ok wm lang svc gpu0] c a0 pw q],
    video_path as [path|]; simpl.
  all: unfold_method; branch.
  all: try (eexists; split; [reflexivity | split; [eassumption | reflexivity]]).
  all: intros c0; in_trace; subst c0; simpl; try done.
Qed.

(** X11: [_process_video] never closes a progress window; it leaves the
    attribute as it was or holding the window it has just opened, and
    when the hand-over to the processor raises, that window stays
    open. *)
Theorem progress_window_left_open env st video_path :
  let out := _process_video env video_path st in
  existsb is_progress_close (trace out) = false
  ∧ (progress_window (final out) = progress_window st
     ∨ progress_window (final out) = Some PwOpen)
  ∧ (∀ c, result out = Raise (CallError c) → is_process_video c = true →
          progress_window (final out) = Some PwOpen).
Proof.
  destruct st as [[url dk ok wm lang svc gpu0] c a0 pw q],
    video_path as [path|]; simpl.
  all: unfold_method; branch; repeat split; auto.
  all: intros c0 [= <-]; done.
Qed.

Lemma process_video_stops_at_failure_witness :
  ∃ c, raises env_processor_down c = true
       ∧ last (trace (_process_video env_processor_down None
                        (state_of widgets_url))) = Some c.
Proof.
  pose proof (process_video_stops_at_failure env_processor_down
                (state_of widgets_url) None) as H.
  destruct (_process_video env_processor_down None (state_of widgets_url))
    as [[[[]|e] st'] t] eqn:E; simpl in H.
  - vm_compute in E. discriminate E.
  - destruct H as (c & _ & Hc & Hl). exists c. split; [exact Hc | exact Hl].
Defined.

Lemma progress_window_left_open_witness :
  progress_window (final (_process_video env_processor_down None
                            (state_of widgets_url))) = Some PwOpen.
Proof.
  destruct (progress_window_left_open env_processor_down
              (state_of widgets_url) None) as (_ & _ & H).
  apply (H (process_video (Some "https://host/video.mp4") None "FR" "DeepL"
              true)); reflexivity.
Defined.

(** X12: with nothing on the queue the listener idles: round after round
    it only arms its timer again and leaves the application as it is. *)
Theorem listener_idle envs n st :
  command_queue st = [] →
  listener envs n true st = (n, st, replicate n (root_after 100)).
Proof.
  intros Hq. revert envs. induction n as [|n IH]; intros envs; [done|].
  cbn [listener]. rewrite (check_commands_empty (envs 0) st Hq).
  unfold trace, final; simpl. by rewrite IH.
Qed.

Lemma listener_idle_witness :
  listener (λ _, env_failing) 3 true (state_in_flight [])
  = (3, state_in_flight [],
     [root_after 100; root_after 100; root_after 100]).
Proof.
  apply (listener_idle (λ _, env_failing) 3 (state_in_flight [])).
  reflexivity.
Defined.

(** X13: handling a message touches nothing but the progress window: the
    widgets, the configuration, the processor's client and the queue are
    as before, no job is started, and the window, if it changes, is
    closed. *)
Theorem handle_command_frame env cmd st :
  let out := _handle_command env cmd st in
  widgets (final out) = widgets st
  ∧ config (final out) = config st
  ∧ api_client (final out) = api_client st
  ∧ command_queue (final out) = command_queue st
  ∧ starts_job (trace out) = false
  ∧ (progress_window (final out) = progress_window st
     ∨ progress_window (final out) = Some PwClosed).
Proof.
  destruct (outcome_of_command cmd) as [o|] eqn:Ho.
  - rewrite (handle_command_dispatch env cmd o Ho).
    destruct st as [w c a [pw|] q], o; simpl.
    all: unfold_handler; branch; repeat split; auto.
  - rewrite (handle_command_other env cmd Ho). simpl. repeat split; auto.
Qed.

End AppMore.

Module GuiFacts.
Import App Gui Obs MoreExamples.

Section Buttons.
Import ModernButton.

(** X14: what [tk.Button] receives from a [ModernButton]: never the
    option [hover_color], which only the class knows; the background and
    the hover colour, given or default, the latter as [activebackground]
    whatever was given under that name; for the five styled options the
    given value or else the default; and every other option as given. *)
Theorem button_options kwargs :
  let b := __init__ kwargs in
  options b !! "hover_color" = None
  ∧ options b !! "bg" = Some (get kwargs "bg" (VStr COLORS.primary))
  ∧ options b !! "activebackground"
    = Some (get kwargs "hover_color" (VStr COLORS.primary_dark))
  ∧ options b !! "bd" = Some (get kwargs "bd" (VInt 0))
  ∧ options b !! "relief" = Some (get kwargs "relief" (VStr "flat"))
  ∧ options b !! "fg" = Some (get kwargs "fg" (VStr "white"))
  ∧ options b !! "activeforeground"
    = Some (get kwargs "activeforeground" (VStr "white"))
  ∧ options b !! "font"
    = Some (get kwargs "font" (VTuple [IStr "Segoe UI"; IInt 10]))
  ∧ ∀ k, k ∉ ["bg"; "hover_color"; "activebackground"; "bd"; "relief";
              "fg"; "activeforeground"; "font"] →
         options b !! k = kwargs !! k.
Proof.
  unfold __init__, get; simpl.
  repeat split.
  all: try (simplify_map_eq; done).
  intros k Hk. repeat (apply not_elem_of_cons in Hk as [? Hk]).
  by simplify_map_eq.
Qed.

Lemma button_options_witness :
  options (__init__ browse_kwargs) !! "text" = Some (VStr "Parcourir")
  ∧ options (__init__ browse_kwargs) !! "bg" = Some (VStr COLORS.primary).
Proof.
  destruct (button_options browse_kwargs) as (_ & Hbg & _ & _ & _ & _ & _ & _ & H).
  split.
  - rewrite H; [reflexivity|].
    repeat (apply not_elem_of_cons; split; [discriminate|]).
    apply not_elem_of_nil.
  - rewrite Hbg. reflexivity.
Defined.

(** X15: the hover effect: entering shows the hover colour, which is also
    the colour of the pressed button, and leaving restores the options
    the button was created with. *)
Theorem button_hover kwargs :
  let b := __init__ kwargs in
  options (_on_enter b) !! "bg" = options b !! "activebackground"
  ∧ options (_on_leave (_on_enter b)) = options b
  ∧ options (_on_enter (_on_leave (_on_enter b))) = options (_on_enter b).
Proof.
  unfold _on_leave, _on_enter, configure_bg, __init__, get; simpl.
  split; [by simplify_map_eq|].
  split; apply map_eq; intros k.
  - destruct (decide (k = "bg")) as [->|]; by simplify_map_eq.
  - destruct (decide (k = "bg")) as [->|]; by simplify_map_eq.
Qed.

End Buttons.

Section Frames.
Import ModernFrame.

(** X16: a [ModernFrame] keeps every option it is given and fills in the
    seven defaults; giving it its own result changes nothing. *)
Theorem frame_defaults kwargs :
  kwargs ⊆ __init__ kwargs
  ∧ __init__ (__init__ kwargs) = __init__ kwargs
  ∧ ∀ k, k ∈ ["bg"; "bd"; "relief"; "highlightbackground";
              "highlightthickness"; "padx"; "pady"] →
         is_Some (__init__ kwargs !! k).
Proof.
  split; [| split].
  - apply map_subseteq_spec. intros k v Hk.
    unfold __init__, get.
    repeat (rewrite lookup_insert; case_decide; [subst k; by rewrite Hk|]).
    done.
  - apply map_eq. intros k. unfold __init__ at 1. unfold get.
    repeat (rewrite lookup_insert; case_decide;
            [subst k;
             match goal with
             | |- Some (default _ ?o) = ?o =>
                 assert (is_Some o) as [v ->]; [| done]
             end;
             unfold __init__, get; by simplify_map_eq|]).
    done.
  - intros k Hk. unfold __init__, get.
    repeat (apply elem_of_cons in Hk as [->|Hk]; [by simplify_map_eq|]).
    by apply elem_of_nil in Hk.
Qed.

Lemma frame_defaults_witness :
  is_Some (ModernFrame.__init__ ∅ !! "padx").
Proof.
  apply (frame_defaults ∅).
  do 5 right. left.
Defined.

End Frames.

(** X17: [_load_defaults] never changes a selection that is already made,
    nor the URL field or the GPU box; run again it leaves the three combo
    boxes and the resource text as they are, but puts the keys in front
    of the entries a second time. *)
Theorem load_defaults_keeps_selection cfg d w label :
  let out := _load_defaults cfg d w label in
  let again := _load_defaults cfg d out.1 out.2 in
  url_entry out.1 = url_entry w
  ∧ gpu_var out.1 = gpu_var w
  ∧ (language_combobox w ≠ "" →
     language_combobox out.1 = language_combobox w)
  ∧ (service_combobox w ≠ "" → service_combobox out.1 = service_combobox w)
  ∧ (whisper_model_combobox w ≠ "" →
     whisper_model_combobox out.1 = whisper_model_combobox w
     ∧ out.2 = label)
  ∧ language_combobox again.1 = language_combobox out.1
  ∧ service_combobox again.1 = service_combobox out.1
  ∧ whisper_model_combobox again.1 = whisper_model_combobox out.1
  ∧ again.2 = out.2
  ∧ deepl_key_entry again.1
    = deepl_key cfg +:+ deepl_key cfg +:+ deepl_key_entry w.
Proof.
  destruct w as [url dk ok wm lang svc gpu0], cfg as [cdk cok cwm],
    d as [dl ds]; unfold _load_defaults, insert0; simpl.
  destruct wm, lang, svc, dl, ds, cwm; simpl; repeat split; try done.
Qed.

Lemma load_defaults_keeps_selection_witness :
  language_combobox
    (_load_defaults (mkConfig "dk" "ok" "small") (mkDefaults "FR" "DeepL")
       (mkWidgets "" "" "" "" "ES - Spanish" "" true) "").1
  = "ES - Spanish".
Proof.
  destruct (load_defaults_keeps_selection (mkConfig "dk" "ok" "small")
              (mkDefaults "FR" "DeepL")
              (mkWidgets "" "" "" "" "ES - Spanish" "" true) "")
    as (_ & _ & H & _).
  apply H. discriminate.
Defined.

(** X18: round trip of the configuration: when the defaults were loaded
    into empty key entries and an empty model box, starting a job writes
    back what was read: [config] is afterwards what it was. *)
Theorem load_then_process_keeps_config env cfg d w label st video_path :
  deepl_key_entry w = "" →
  openai_key_entry w = "" →
  whisper_model_combobox w = "" →
  config st = cfg →
  widgets st = (_load_defaults cfg d w label).1 →
  config (final (_process_video env video_path st)) = cfg.
Proof.
  destruct w as [url dk ok wm lang svc gpu0], cfg as [cdk cok cwm],
    st as [w' c a pw q]; simpl.
  intros -> -> -> -> ->.
  unfold _load_defaults, insert0; simpl.
  rewrite !PyMore.app_empty_r.
  destruct video_path as [path|].
  all: AppFacts.unfold_method; AppFacts.branch; done.
Qed.

Lemma load_then_process_keeps_config_witness :
  config (final (_process_video (Examples.env_quiet true) None
                   (mkState
                      (_load_defaults (mkConfig "dk" "ok" "small")
                         (mkDefaults "FR" "DeepL") widgets_fresh "").1
                      (mkConfig "dk" "ok" "small")
                      (mkConfig "" "" "") None [])))
  = mkConfig "dk" "ok" "small".
Proof.
  by apply (load_then_process_keeps_config (Examples.env_quiet true)
              (mkConfig "dk" "ok" "small") (mkDefaults "FR" "DeepL")
              widgets_fresh "").
Defined.

(** X19: the resource estimate: every model the combo box offers has its
    figures in the table, so its text shows them; any other model gives
    question marks instead of an error. *)
Theorem resource_text_cases model :
  (model ∈ whisper_values →
   ∃ ram vram, model_resources !! model = Some (ram, vram)
               ∧ resource_text model
                 = "Ressources estimées: RAM " +:+ ram +:+ " / VRAM "
                   +:+ vram)
  ∧ (model_resources !! model = None →
     resource_text model = "Ressources estimées: RAM ? / VRAM ?").
Proof.
  split.
  - intros Hm. unfold whisper_values in Hm.
    repeat (apply elem_of_cons in Hm as [->|Hm];
            [eexists _, _; split; reflexivity|]).
    by apply elem_of_nil in Hm.
  - intros Hn. unfold resource_text. by rewrite Hn.
Qed.

Lemma resource_text_cases_witness :
  resource_text "medium" = "Ressources estimées: RAM 10GB / VRAM 5GB"
  ∧ resource_text "huge" = "Ressources estimées: RAM ? / VRAM ?".
Proof.
  split.
  - destruct (resource_text_cases "medium") as [H _].
    destruct H as (ram & vram & Hl & ->); [do 3 right; left|].
    vm_compute in Hl. by injection Hl as <- <-.
  - by apply (resource_text_cases "huge").
Defined.

Lemma string_app_assoc (a b c : string) : (a +:+ b) +:+ c = a +:+ b +:+ c.
Proof.
  induction a as [|x a IH]; [done|].
  by rewrite !PyMore.app_cons, IH.
Qed.

Lemma ends_with_nl_app c s t :
  ends_with_nl (s +:+ String c t) = ends_with_nl (String c t).
Proof.
  induction s as [|x s IH]; [done|].
  rewrite PyMore.app_cons. cbn [ends_with_nl]. rewrite IH.
  destruct (s +:+ String c t) eqn:E; [| done].
  by destruct s.
Qed.

Lemma ends_with_nl_message level msg :
  ends_with_nl ("[" +:+ level +:+ "] " +:+ msg)
  = ends_with_nl msg.
Proof.
  destruct msg as [|c m].
  - rewrite PyMore.app_empty_r.
    change "] " with ("]" +:+ String " " "").
    rewrite <- !string_app_assoc. by rewrite ends_with_nl_app.
  - rewrite <- !string_app_assoc. by rewrite ends_with_nl_app.
Qed.

Lemma format_traceback level msg tb :
  tb ≠ "" → ends_with_nl msg = false →
  format (mkLogRecord level msg (Some tb) None)
  = "[" +:+ level +:+ "] " +:+ msg +:+ Msg.nl +:+ tb.
Proof.
  intros Htb Hnl. unfold format, add_block.
  cbn [exc_text stack_info Py.truthy_opt].
  apply PyFacts.truthy_true in Htb. rewrite Htb.
  unfold formatMessage. cbn [levelname message default from_option].
  rewrite ends_with_nl_message, Hnl.
  by rewrite !string_app_assoc.
Qed.

Lemma append_spec msg t :
  append msg t
  = mkTextWidget (content t +:+ msg +:+ String "010" "") false (scheduled t).
Proof. reflexivity. Qed.

Lemma run_callbacks_spec msgs t :
  content (run_callbacks msgs t) = content t +:+ lines msgs
  ∧ scheduled (run_callbacks msgs t) = scheduled t
  ∧ normal (run_callbacks msgs t)
    = match msgs with [] => normal t | _ => false end.
Proof.
  revert t. induction msgs as [|msg rest IH]; intros t; simpl.
  - by rewrite PyMore.app_empty_r.
  - destruct (IH (append msg t)) as (Hc & Hs & Hn).
    rewrite Hc, Hs, Hn, append_spec; simpl.
    rewrite !string_app_assoc. repeat split. by destruct rest.
Qed.

(** X20: the log view: once the scheduled callbacks have run, the view
    holds, after what it held, the text of each record followed by a line
    feed, in the order of emission, although the view is kept read-only;
    nothing is left scheduled, and the view is read-only again.  The text
    of a record without traceback and stack is the line of its level and
    message; a traceback follows that line on lines of its own. *)
Theorem log_lines_in_order rs t :
  let t' := update_idle (foldl (λ t r, emit r t) t rs) in
  content t' = content t +:+ lines (scheduled t ++ (format <$> rs))
  ∧ scheduled t' = []
  ∧ (scheduled t ++ (format <$> rs) ≠ [] → normal t' = false)
  ∧ (∀ level msg,
       format (mkLogRecord level msg None None)
       = "[" +:+ level +:+ "] " +:+ msg)
  ∧ (∀ level msg tb,
       tb ≠ "" → ends_with_nl msg = false →
       format (mkLogRecord level msg (Some tb) None)
       = "[" +:+ level +:+ "] " +:+ msg +:+ Msg.nl +:+ tb).
Proof.
  assert (∀ rs t,
            content (foldl (λ t r, emit r t) t rs) = content t
            ∧ scheduled (foldl (λ t r, emit r t) t rs)
              = scheduled t ++ (format <$> rs)) as Hemit.
  { clear. induction rs as [|r rs IH]; intros t; simpl.
    - by rewrite app_nil_r.
    - destruct (IH (emit r t)) as [-> ->]. simpl.
      by rewrite <- app_assoc. }
  simpl. unfold update_idle.
  destruct (Hemit rs t) as [Hc Hs]. rewrite Hc, Hs.
  destruct (run_callbacks_spec (scheduled t ++ (format <$> rs))
              (mkTextWidget (content t)
                 (normal (foldl (λ t r, emit r t) t rs)) []))
    as (Hc' & Hs' & Hn').
  rewrite Hc', Hs', Hn'. simpl. split; [done|]. split; [done|].
  split; [| split].
  - intros Hne. by destruct (scheduled t ++ (format <$> rs)).
  - reflexivity.
  - apply format_traceback.
Qed.

Lemma log_lines_in_order_witness :
  content (update_idle
             (emit (mkLogRecord "ERROR" "Erreur en fin de traitement: boom"
                      (Some "Traceback (most recent call last): ...") None)
                (emit (mkLogRecord "INFO" "started" None None)
                   (mkTextWidget "" false []))))
  = "[INFO] started" +:+ Msg.nl
    +:+ "[ERROR] Erreur en fin de traitement: boom" +:+ Msg.nl
    +:+ "Traceback (most recent call last): ..." +:+ Msg.nl
  ∧ normal (update_idle
              (emit (mkLogRecord "ERROR" "Erreur en fin de traitement: boom"
                       (Some "Traceback (most recent call last): ...") None)
                 (emit (mkLogRecord "INFO" "started" None None)
                    (mkTextWidget "" false [])))) = false.
Proof.
  destruct (log_lines_in_order
              [mkLogRecord "INFO" "started" None None;
               mkLogRecord "ERROR" "Erreur en fin de traitement: boom"
                 (Some "Traceback (most recent call last): ...") None]
              (mkTextWidget "" false [])) as (Hc & _ & Hn & _).
  split; [exact Hc | apply Hn; discriminate].
Defined.

(** X21: centring: a window that fits the screen is placed inside it, and
    the margins on the two sides differ by at most one pixel. *)
Theorem centre_fits screenwidth screenheight width height :
  (0 ≤ width ≤ screenwidth)%Z →
  (0 ≤ height ≤ screenheight)%Z →
  let p := centre screenwidth screenheight width height in
  (0 ≤ p.1 ∧ p.1 + width ≤ screenwidth
   ∧ -1 ≤ (screenwidth - (p.1 + width)) - p.1 ≤ 1
   ∧ 0 ≤ p.2 ∧ p.2 + height ≤ screenheight
   ∧ -1 ≤ (screenheight - (p.2 + height)) - p.2 ≤ 1)%Z.
Proof.
  intros Hw Hh. unfold centre; simpl.
  pose proof (Z.div_mod screenwidth 2 ltac:(lia)).
  pose proof (Z.mod_pos_bound screenwidth 2 ltac:(lia)).
  pose proof (Z.div_mod width 2 ltac:(lia)).
  pose proof (Z.mod_pos_bound width 2 ltac:(lia)).
  pose proof (Z.div_mod screenheight 2 ltac:(lia)).
  pose proof (Z.mod_pos_bound screenheight 2 ltac:(lia)).
  pose proof (Z.div_mod height 2 ltac:(lia)).
  pose proof (Z.mod_pos_bound height 2 ltac:(lia)).
  lia.
Qed.

Lemma centre_fits_witness :
  centre 1920 1080 500 400 = (710, 340)%Z
  ∧ (0 ≤ (centre 1920 1080 500 400).1)%Z.
Proof.
  split; [reflexivity|].
  apply (centre_fits 1920 1080 500 400); lia.
Defined.

End GuiFacts.
